(** * Orrery: the system model and position resolution of [orrery.py]

    A shallow embedding of the parts of [src/orrery.py] that build the
    in-memory star system from journal events and resolve screen positions:

    - the values [json.loads] hands to the program, Python exceptions and
      the [float()] conversion;
    - the [CelestialBody] dataclass and the state of [SystemOrrery];
    - [get_body_position], [process_log_entry], [get_newest_file] and the
      loop of [monitor_logs].

    Python floats are IEEE binary64 numbers, embedded as Rocq's primitive
    floats; Python ints are [Z]; dicts are finite maps. *)

From Stdlib Require Import ZArith String List.
From Stdlib Require Import Floats.PrimFloat Floats.SpecFloat.
From Stdlib Require Floats.FloatOps.
From stdpp Require Import gmap strings list.

Set Warnings "-register-all".
Local Open Scope string_scope.

(** ** Python values and exceptions *)

(** What [json.loads] returns: [None], [bool], [int], [float], [str],
    [list] and [dict] (string keys). *)
Inductive json : Type :=
  | JNull
  | JBool (b : bool)
  | JInt (z : Z)
  | JFloat (f : float)
  | JStr (s : string)
  | JList (l : list json)
  | JObj (o : gmap string json).

(** The exceptions the modelled code can meet; all derive from
    [Exception]. *)
Inductive exn : Type :=
  | KeyError (key : string)
  | TypeError (msg : string)
  | ValueError (msg : string)
  | OverflowError (msg : string)
  | ZeroDivisionError (msg : string)
  | OtherException (cls msg : string).

(** [str(e)], as interpolated by an f-string. *)
Definition str_exn (e : exn) : string :=
  match e with
  | KeyError k => "'" ++ k ++ "'"
  | TypeError m | ValueError m | OverflowError m | ZeroDivisionError m
  | OtherException _ m => m
  end.

(** The outcome of evaluating a Python expression. *)
Inductive res (A : Type) : Type :=
  | Ok (a : A)
  | Raise (e : exn).
Arguments Ok {A} a.
Arguments Raise {A} e.

#[global] Instance res_ret : MRet res := fun _ a => Ok a.
#[global] Instance res_bind : MBind res := fun _ _ k m =>
  match m with Ok a => k a | Raise e => Raise e end.

Definition is_Ok {A} (r : res A) : Prop :=
  match r with Ok _ => True | Raise _ => False end.

(** ** Numbers *)

(** [math.pi], the double nearest to pi. *)
Definition math_pi : float := (0x1.921fb54442d18p+1)%float.

(** The double nearest to an integer (ties to even); infinite when the
    integer is beyond the doubles' range. *)
Definition Z2float (z : Z) : float :=
  FloatOps.SF2Prim (binary_normalize FloatOps.prec FloatOps.emax z 0 false).

(** The integer a float is equal to under Python's [==], if any. *)
Definition float_integer (f : float) : option Z :=
  match FloatOps.Prim2SF f with
  | S754_zero _ => Some 0%Z
  | S754_finite s m e =>
      let sign := if s then Z.opp else fun z => z in
      if (0 <=? e)%Z then Some (sign (Z.pos m * 2 ^ e)%Z)
      else if (Z.pos m mod 2 ^ (- e) =? 0)%Z then Some (sign (Z.pos m / 2 ^ (- e))%Z)
      else None
  | _ => None
  end.

(** ** Dictionary keys

    [self.bodies] is a dict keyed by whatever [data.get('BodyID', 0)]
    returned.  Python identifies keys that are equal under [==]: [True]
    is [1], [2.0] is [2].  A key is the class of a hashable value; lists
    and dicts are unhashable.  (A NaN key, which Python tells apart by
    object identity, is a single key here.) *)
Inductive key : Type :=
  | KInt (z : Z)
  | KFloat (f : spec_float)
  | KStr (s : string)
  | KNone.

#[global] Instance spec_float_eq_dec : EqDecision spec_float.
Proof. solve_decision. Defined.

#[global] Instance key_eq_dec : EqDecision key.
Proof. solve_decision. Defined.

#[global] Instance spec_float_countable : Countable spec_float.
Proof.
  refine (inj_countable'
    (fun f => match f with
              | S754_zero s => inl (inl s)
              | S754_infinity s => inl (inr s)
              | S754_nan => inr (inl ())
              | S754_finite s m e => inr (inr (s, m, e))
              end)
    (fun c => match c with
              | inl (inl s) => S754_zero s
              | inl (inr s) => S754_infinity s
              | inr (inl _) => S754_nan
              | inr (inr (s, m, e)) => S754_finite s m e
              end) _).
  by intros [].
Defined.

#[global] Instance key_countable : Countable key.
Proof.
  refine (inj_countable'
    (fun k => match k with
              | KInt z => inl (inl z)
              | KFloat f => inl (inr f)
              | KStr s => inr (inl s)
              | KNone => inr (inr ())
              end)
    (fun c => match c with
              | inl (inl z) => KInt z
              | inl (inr f) => KFloat f
              | inr (inl s) => KStr s
              | inr (inr _) => KNone
              end) _).
  by intros [].
Defined.

(** [hash(v)] followed by the equality class of [v]. *)
Definition py_key (v : json) : res key :=
  match v with
  | JNull => Ok KNone
  | JBool b => Ok (KInt (Z.b2z b))
  | JInt z => Ok (KInt z)
  | JFloat f =>
      match float_integer f with
      | Some z => Ok (KInt z)
      | None => Ok (KFloat (FloatOps.Prim2SF f))
      end
  | JStr s => Ok (KStr s)
  | JList _ => Raise (TypeError "unhashable type: 'list'")
  | JObj _ => Raise (TypeError "unhashable type: 'dict'")
  end.

(** [d[k] = v] on a dict. *)
Definition dict_setitem {V} (d : gmap key V) (k : json) (v : V) : res (gmap key V) :=
  k' ← py_key k; Ok (<[k' := v]> d).

(** [data.get(k, default)] and [data[k]] on a decoded JSON object. *)
Definition dict_get (data : gmap string json) (k : string) (default : json) : json :=
  match data !! k with Some v => v | None => default end.

Definition dict_getitem (data : gmap string json) (k : string) : res json :=
  match data !! k with Some v => Ok v | None => Raise (KeyError k) end.

(** ** The data model *)

(** The dataclass [CelestialBody].  [body_id], [name] and the display
    fields hold the journal's values as they came; the numeric fields went
    through [float()]; [parent_id] is what [get_parent_id] returned. *)
Record CelestialBody : Type := {
  body_id : json;
  name : json;
  type : string;
  parent_id : option Z;
  semi_major_axis : float;
  eccentricity : float;
  orbital_inclination : float;
  orbital_period : float;
  ascending_node : float;
  mean_anomaly : float;
  radius : float;
  mass : float;
  distance_from_arrival : float;
  planet_class : json;
  surface_temp : float;
  surface_gravity : float;
  atmosphere_type : json;
  terraform_state : json;
  is_landable : json
}.

(** Records emitted through [logging]. *)
Inductive level : Type := INFO | ERROR.
Definition log_record : Type := level * string.

(** Callbacks queued with [self.after(0, ...)]. *)
Inductive callback : Type := draw_system | update_body_list.

(** The state the modelled methods of [SystemOrrery] read and write: the
    attributes of [self], the canvas size Tk reports, the log and Tk's
    queue of deferred calls.  The pan offset and the animation clock are
    kept as floats (they start as the int [0], and pixel counts convert
    exactly). *)
Record SystemOrrery : Type := {
  bodies : gmap key CelestialBody;
  stars : list json;
  canvas_width : Z;
  canvas_height : Z;
  center_x : float;
  center_y : float;
  scale_factor : float;
  zoom : float;
  animation_time : float;
  log : list log_record;
  queue : list callback
}.

Definition set_bodies (b : gmap key CelestialBody) (self : SystemOrrery) : SystemOrrery :=
  {| bodies := b; stars := stars self;
     canvas_width := canvas_width self; canvas_height := canvas_height self;
     center_x := center_x self; center_y := center_y self;
     scale_factor := scale_factor self; zoom := zoom self;
     animation_time := animation_time self;
     log := log self; queue := queue self |}.

Definition set_stars (l : list json) (self : SystemOrrery) : SystemOrrery :=
  {| bodies := bodies self; stars := l;
     canvas_width := canvas_width self; canvas_height := canvas_height self;
     center_x := center_x self; center_y := center_y self;
     scale_factor := scale_factor self; zoom := zoom self;
     animation_time := animation_time self;
     log := log self; queue := queue self |}.

Definition set_zoom (z : float) (self : SystemOrrery) : SystemOrrery :=
  {| bodies := bodies self; stars := stars self;
     canvas_width := canvas_width self; canvas_height := canvas_height self;
     center_x := center_x self; center_y := center_y self;
     scale_factor := scale_factor self; zoom := z;
     animation_time := animation_time self;
     log := log self; queue := queue self |}.

(** [logging.error(msg)] / [logging.info(msg)]. *)
Definition logging (lv : level) (msg : string) (self : SystemOrrery) : SystemOrrery :=
  {| bodies := bodies self; stars := stars self;
     canvas_width := canvas_width self; canvas_height := canvas_height self;
     center_x := center_x self; center_y := center_y self;
     scale_factor := scale_factor self; zoom := zoom self;
     animation_time := animation_time self;
     log := log self ++ [(lv, msg)]; queue := queue self |}.

(** [self.after(0, cb)]. *)
Definition after (cb : callback) (self : SystemOrrery) : SystemOrrery :=
  {| bodies := bodies self; stars := stars self;
     canvas_width := canvas_width self; canvas_height := canvas_height self;
     center_x := center_x self; center_y := center_y self;
     scale_factor := scale_factor self; zoom := zoom self;
     animation_time := animation_time self;
     log := log self; queue := queue self ++ [cb] |}.

(** The state [__init__] leaves, for a canvas of the given size. *)
Definition init (w h : Z) : SystemOrrery :=
  {| bodies := ∅; stars := [];
     canvas_width := w; canvas_height := h;
     center_x := 0; center_y := 0;
     scale_factor := 0x1.12e0be826d695p-30; zoom := 1;
     animation_time := 0;
     log := []; queue := [] |}.

(** What the file system shows of one name in the journal directory:
    the name [os.listdir] gave, what [os.path.isfile] says of it and what
    [os.path.getmtime] returns or raises.  Modification times are
    compared only; they are kept as integer ticks. *)
Record dir_entry : Type := {
  entry_name : string;
  entry_is_file : bool;
  entry_mtime : res Z
}.

(** [os.path.join(directory, f)] for a name [os.listdir] gave, on the
    platform of the hard-coded directory. *)
Definition path_join (directory f : string) : string :=
  directory ++ "\" ++ f.

(** How [open(newest_file, 'r')] ends. *)
Inductive open_result : Type :=
  | Opened
  | NotFound
  | OpenError (e : exn).

(** What one turn of the reading loop gets: [readline()] returned the
    empty string, or raised, or returned a line that [json.loads] rejects
    ([msg] is the [JSONDecodeError]) or decodes. *)
Inductive read : Type :=
  | NoLine
  | ReadError (e : exn)
  | Malformed (line msg : string)
  | Entry (data : json).

(** What the watcher thread observes in one turn of a loop: the shutdown
    flag [self.running], the directory, the outcome of an [open], the
    outcome of a read. *)
Record world : Type := {
  running : bool;
  listing : res (list dir_entry);
  opening : open_result;
  next_line : read
}.

(** Where the thread running [monitor_logs] is. *)
Inductive watcher : Type :=
  | Polling
  | Tailing (file : string)
  | Returned
  | Crashed (e : exn).

(** A method of [SystemOrrery]: it may raise, and it may change [self]. *)
Definition method (A : Type) : Type := SystemOrrery → res A * SystemOrrery.

(** ** What [orrery.py] calls and does not define *)

(** Modelled from the spec: [get_parent_id], which [process_log_entry]
    calls on [data.get('Parents', [])] and no file of the program defines.
    Section 4.4: it "resolves the declared parent identifier from an
    ordered list of ancestry descriptors, taking the nearest ancestor";
    section 8 resolves [[{"Star":1}]] to 1.  The journal lists the nearest
    ancestor first, each descriptor an object with one entry, from the
    ancestor's kind to its id; no descriptor means no parent. *)
Definition get_parent_id_model (parents : json) : res (option Z) :=
  match parents with
  | JList (JObj o :: _) =>
      match map_to_list o with
      | [(_, JInt p)] => Ok (Some p)
      | _ => Ok None
      end
  | _ => Ok None
  end.

(** [a / b] on floats: Python raises where IEEE arithmetic would return
    an infinity or a NaN. *)
Definition py_truediv (a b : float) : res float :=
  if is_zero b then Raise (ZeroDivisionError "float division by zero")
  else Ok (a / b)%float.

Section Calculator.

(** The point of a body's orbit at a given anomaly, projected on the
    plane, in the journal's linear units.  The spec names the orbital
    elements it is computed from and gives no formula. *)
Variable orbit_point : CelestialBody → float → float * float.

(** Modelled from the spec: the method [calculate_position], which
    [get_body_position] calls and no file of the program defines.
    Section 4.1: the offset from the parent is "scaled by a fixed linear
    distance-to-pixel factor and a user-controlled zoom multiplier";
    "a period of zero must not cause division by zero -- must degenerate to
    a fixed/static position; absent or zero semi-major axis collapses the
    body to its parent's location"; the function is pure and has no error
    conditions.  Section 8 and the glossary: the mean anomaly is the angle
    at time 0, and one period of elapsed time brings the body round once. *)
Definition calculate_position_model (body : CelestialBody) (time : float)
    : method (float * float) := fun self =>
  let offset :=
    if is_zero (semi_major_axis body) then Ok (0, 0)%float
    else
      anomaly ← (if is_zero (orbital_period body) then Ok (mean_anomaly body)
                 else turns ← py_truediv time (orbital_period body);
                      Ok (mean_anomaly body + 2 * math_pi * turns)%float);
      let '(x, y) := orbit_point body anomaly in
      let k := (scale_factor self * zoom self)%float in
      Ok (x * k, y * k)%float in
  (offset, self).

End Calculator.

(** ** Sample data

    The two events of the spec's end-to-end scenario, an event with no
    [BodyName], and the bodies and states they lead to. *)

Definition star_a : gmap string json :=
  list_to_map
    [("event", JStr "Scan"); ("BodyID", JInt 1); ("BodyName", JStr "Star A");
     ("StarType", JStr "K"); ("DistanceFromArrivalLS", JInt 0)].

Definition planet_b : gmap string json :=
  list_to_map
    [("event", JStr "Scan"); ("BodyID", JInt 2); ("BodyName", JStr "Planet B");
     ("Parents", JList [JObj {[ "Star" := JInt 1 ]}]);
     ("SemiMajorAxis", JFloat 1.5e10); ("Eccentricity", JFloat 0x1.47ae147ae147bp-7);
     ("OrbitalPeriod", JInt 31536000); ("DistanceFromArrivalLS", JInt 10)].

Definition nameless : gmap string json :=
  list_to_map [("event", JStr "Scan"); ("BodyID", JInt 7)].

(** A body with the defaults of the dataclass. *)
Definition plain_body (id : Z) (nm kind : string) (parent : option Z) : CelestialBody :=
  {| body_id := JInt id; name := JStr nm; type := kind; parent_id := parent;
     semi_major_axis := 0; eccentricity := 0; orbital_inclination := 0;
     orbital_period := 0; ascending_node := 0; mean_anomaly := 0;
     radius := 0; mass := 0; distance_from_arrival := 0;
     planet_class := JStr ""; surface_temp := 0; surface_gravity := 0;
     atmosphere_type := JStr ""; terraform_state := JStr "";
     is_landable := JBool false |}.

Definition star_a_body : CelestialBody := plain_body 1 "Star A" "Star" None.

Definition planet_b_body : CelestialBody :=
  {| body_id := JInt 2; name := JStr "Planet B"; type := "Planet"; parent_id := Some 1%Z;
     semi_major_axis := 1.5e10; eccentricity := 0x1.47ae147ae147bp-7;
     orbital_inclination := 0; orbital_period := 31536000;
     ascending_node := 0; mean_anomaly := 0;
     radius := 0; mass := 0; distance_from_arrival := 10;
     planet_class := JStr ""; surface_temp := 0; surface_gravity := 0;
     atmosphere_type := JStr ""; terraform_state := JStr "";
     is_landable := JBool false |}.

(** The state after the two events, on an 800 by 600 canvas; the queue
    holds the two deferred calls of each event. *)
Definition system_ab : SystemOrrery :=
  {| bodies := {[ KInt 1 := star_a_body; KInt 2 := planet_b_body ]};
     stars := [JInt 1];
     canvas_width := 800; canvas_height := 600;
     center_x := 0; center_y := 0;
     scale_factor := 0x1.12e0be826d695p-30; zoom := 1;
     animation_time := 0;
     log := [];
     queue := [draw_system; update_body_list; draw_system; update_body_list] |}.

(** Two bodies that name each other as parent. *)
Definition system_cycle : SystemOrrery :=
  set_bodies {[ KInt 3 := plain_body 3 "C" "Planet" (Some 4%Z);
                KInt 4 := plain_body 4 "D" "Planet" (Some 3%Z) ]} (init 800 600).

(** In the examples, numbers come as JSON numbers, never as strings, and
    a body is placed on the x axis at its semi-major axis. *)
Definition no_numeric_strings : string → option float := λ _, None.

Definition on_axis : CelestialBody → float → float * float :=
  λ body _, (semi_major_axis body, 0%float).

(** A directory with one journal, then with a newer one beside it. *)
Definition journal_1 : dir_entry :=
  {| entry_name := "Journal.1.log"; entry_is_file := true; entry_mtime := Ok 1%Z |}.

Definition journal_2 : dir_entry :=
  {| entry_name := "Journal.2.log"; entry_is_file := true; entry_mtime := Ok 2%Z |}.

Definition quiet (names : list dir_entry) : world :=
  {| running := true; listing := Ok names; opening := Opened; next_line := NoLine |}.

(** A Scan event that names itself as its parent, and the body it
    makes. *)
Definition loop_event : gmap string json :=
  list_to_map
    [("event", JStr "Scan"); ("BodyID", JInt 5); ("BodyName", JStr "Loop");
     ("Parents", JList [JObj {[ "Planet" := JInt 5 ]}])].

Definition loop_body : CelestialBody := plain_body 5 "Loop" "Planet" (Some 5%Z).

(** Turns of the reading loop: a decoded line, a line that is no JSON,
    the flag down; a turn of the outer loop whose file is gone. *)
Definition line (data : json) : world :=
  {| running := true; listing := Ok []; opening := Opened; next_line := Entry data |}.

Definition garbage : world :=
  {| running := true; listing := Ok []; opening := Opened;
     next_line := Malformed "not valid json" "Expecting value: line 1 column 1 (char 0)" |}.

Definition shutdown : world :=
  {| running := false; listing := Ok []; opening := Opened; next_line := NoLine |}.

Definition vanished (names : list dir_entry) : world :=
  {| running := true; listing := Ok names; opening := NotFound; next_line := NoLine |}.

(** A third journal, as recent as the second, and a file that is no
    journal. *)
Definition journal_3 : dir_entry :=
  {| entry_name := "Journal.3.log"; entry_is_file := true; entry_mtime := Ok 2%Z |}.

Definition notes : dir_entry :=
  {| entry_name := "notes.txt"; entry_is_file := true; entry_mtime := Ok 9%Z |}.

Section Orrery.

Set Default Proof Using "Type".

(** [float(s)] on a string is the interpreter's parser, [None] where it
    raises [ValueError]. *)
Variable float_of_str : string → option float.

(** Two functions [orrery.py] calls and does not define: the module-level
    [get_parent_id] (it has no access to [self]) and the method
    [calculate_position]. *)
Variable get_parent_id : json → res (option Z).
Variable calculate_position : CelestialBody → float → method (float * float).

(** The journal directory, [os.path.expandvars] of the hard-coded path. *)
Variable directory : string.

(** [float(v)]. *)
Definition py_float (v : json) : res float :=
  match v with
  | JFloat f => Ok f
  | JInt z =>
      let f := Z2float z in
      if is_infinity f then Raise (OverflowError "int too large to convert to float")
      else Ok f
  | JBool b => Ok (if b then 1 else 0)%float
  | JStr s =>
      match float_of_str s with
      | Some f => Ok f
      | None => Raise (ValueError ("could not convert string to float: '" ++ s ++ "'"))
      end
  | JNull | JList _ | JObj _ =>
      Raise (TypeError "float() argument must be a string or a real number")
  end.

(** ** Position resolution *)

(** [(winfo_width() / 2 + center_x, winfo_height() / 2 + center_y)].
    Tk reports sizes as C ints, which convert to floats exactly. *)
Definition canvas_center (self : SystemOrrery) : float * float :=
  ((Z2float (canvas_width self) / 2 + center_x self)%float,
   (Z2float (canvas_height self) / 2 + center_y self)%float).

(** [get_body_position(self, body)].  [depth] bounds the depth of the
    recursion, as the interpreter's stack does; [None] is a recursion that
    went deeper. *)
Fixpoint get_body_position (depth : nat) (body : CelestialBody) (self : SystemOrrery)
    : option (res (float * float) * SystemOrrery) :=
  match depth with
  | O => None
  | S depth' =>
      match parent_id body with
      | None => Some (Ok (canvas_center self), self)
      | Some p =>
          if (p =? 0)%Z then Some (Ok (canvas_center self), self)
          else
            match bodies self !! KInt p with
            | None => Some (Ok (canvas_center self), self)
            | Some parent =>
                match get_body_position depth' parent self with
                | None => None
                | Some (Raise e, self1) => Some (Raise e, self1)
                | Some (Ok (parent_x, parent_y), self1) =>
                    match calculate_position body (animation_time self1) self1 with
                    | (Raise e, self2) => Some (Raise e, self2)
                    | (Ok (offset_x, offset_y), self2) =>
                        Some (Ok ((parent_x + offset_x)%float, (parent_y + offset_y)%float), self2)
                    end
                end
            end
      end
  end.

(** ** Building the model from journal events *)

(** [k in data]. *)
Definition dict_contains (data : gmap string json) (k : string) : bool :=
  match data !! k with Some _ => true | None => false end.

(** [v == s] for a string literal [s]. *)
Definition py_eq_str (v : json) (s : string) : bool :=
  match v with JStr s' => String.eqb s' s | _ => false end.

(** The [TypeError] of [data['event']] when [data] is no dict. *)
Definition not_a_dict (data : json) : exn :=
  match data with
  | JList _ => TypeError "list indices must be integers or slices, not str"
  | JStr _ => TypeError "string indices must be integers, not 'str'"
  | _ => TypeError "object is not subscriptable"
  end.

(** [float(data.get(k, 0))] and the same converted from degrees,
    [float(data.get(k, 0)) * math.pi / 180.0]. *)
Definition float_field (data : gmap string json) (k : string) : res float :=
  py_float (dict_get data k (JInt 0)).

Definition radians_field (data : gmap string json) (k : string) : res float :=
  f ← float_field data k; Ok (f * math_pi / 180)%float.

(** ['StellarMass' if is_star else 'MassEM']. *)
Definition mass_field (data : gmap string json) : string :=
  if dict_contains data "StarType" then "StellarMass" else "MassEM".

(** The constructor call [CelestialBody(body_id=..., ...)]: the arguments
    are evaluated in the order they are written, and the first that raises
    ends the call. *)
Definition scan_body (data : gmap string json) (id : json) : res CelestialBody :=
  let is_star := dict_contains data "StarType" in
  nm ← dict_getitem data "BodyName";
  parent ← get_parent_id (dict_get data "Parents" (JList []));
  sma ← float_field data "SemiMajorAxis";
  ecc ← float_field data "Eccentricity";
  inc ← radians_field data "OrbitalInclination";
  per ← float_field data "OrbitalPeriod";
  node ← radians_field data "AscendingNode";
  anom ← radians_field data "MeanAnomaly";
  rad ← float_field data "Radius";
  m ← float_field data (mass_field data);
  dist ← float_field data "DistanceFromArrivalLS";
  temp ← float_field data "SurfaceTemperature";
  grav ← float_field data "SurfaceGravity";
  Ok {| body_id := id;
        name := nm;
        type := if is_star then "Star" else "Planet";
        parent_id := parent;
        semi_major_axis := sma;
        eccentricity := ecc;
        orbital_inclination := inc;
        orbital_period := per;
        ascending_node := node;
        mean_anomaly := anom;
        radius := rad;
        mass := m;
        distance_from_arrival := dist;
        planet_class := dict_get data "PlanetClass" (JStr "");
        surface_temp := temp;
        surface_gravity := grav;
        atmosphere_type := dict_get data "AtmosphereType" (JStr "");
        terraform_state := dict_get data "TerraformState" (JStr "");
        is_landable := dict_get data "Landable" (JBool false) |}.

(** The body of the [try] in [process_log_entry]: build the record, store
    it under its id, list it if it is a star.  An exception leaves with
    the state as it is at that point; nothing is rolled back. *)
Definition scan_try (data : gmap string json) (id : json) : method unit := fun self =>
  let is_star := dict_contains data "StarType" in
  match scan_body data id with
  | Raise e => (Raise e, self)
  | Ok body =>
      match dict_setitem (bodies self) id body with
      | Raise e => (Raise e, self)
      | Ok bodies' =>
          let self1 := set_bodies bodies' self in
          (Ok (), if is_star then set_stars (stars self1 ++ [id]) self1 else self1)
      end
  end.

(** [process_log_entry(self, data)]. *)
Definition process_log_entry (data : json) : method unit := fun self =>
  match data with
  | JObj d =>
      match dict_getitem d "event" with
      | Raise e => (Raise e, self)
      | Ok event =>
          let self1 :=
            if py_eq_str event "Scan" then
              match scan_try d (dict_get d "BodyID" (JInt 0)) self with
              | (Ok _, self') => self'
              | (Raise e, self') =>
                  logging ERROR ("Error processing body data: " ++ str_exn e) self'
              end
            else self in
          (Ok (), after update_body_list (after draw_system self1))
      end
  | _ => (Raise (not_a_dict data), self)
  end.

(** The calls of [process_log_entry] the reading loop makes for the
    decoded lines of a file, one after the other; an exception that
    leaves [process_log_entry] ends the loop. *)
Fixpoint process_entries (events : list json) : method unit := fun self =>
  match events with
  | [] => (Ok (), self)
  | data :: rest =>
      match process_log_entry data self with
      | (Ok _, self1) => process_entries rest self1
      | (Raise e, self1) => (Raise e, self1)
      end
  end.

(** A decoded line that is a Scan event. *)
Definition is_scan (data : gmap string json) : Prop :=
  data !! "event" = Some (JStr "Scan").

(** The fields [scan_body] passes through [float()]. *)
Definition numeric_fields : list string :=
  ["SemiMajorAxis"; "Eccentricity"; "OrbitalInclination"; "OrbitalPeriod";
   "AscendingNode"; "MeanAnomaly"; "Radius"; "StellarMass"; "MassEM";
   "DistanceFromArrivalLS"; "SurfaceTemperature"; "SurfaceGravity"].

(** Field [f] of an event, if the event has it, is a value [float()]
    accepts. *)
Definition convertible (data : gmap string json) (f : string) : Prop :=
  ∀ v, data !! f = Some v → is_Ok (py_float v).

(** What an event adds to [self.stars]: its [BodyID], when it is a Scan
    event with a [StarType] whose [try] block ran to its end. *)
Definition star_entry (data : json) : option json :=
  match data with
  | JObj d =>
      let id := dict_get d "BodyID" (JInt 0) in
      match d !! "event", d !! "StarType", scan_body d id, py_key id with
      | Some ev, Some _, Ok _, Ok _ => if py_eq_str ev "Scan" then Some id else None
      | _, _, _, _ => None
      end
  | _ => None
  end.

(** ** The log watcher *)

(** [f.startswith('Journal.') and f.endswith('.log')]. *)
Definition is_journal (f : string) : bool :=
  String.prefix "Journal." f && String.prefix (String.rev ".log") (String.rev f).

(** [get_newest_file(self, directory)], given what [os.listdir] returned
    or raised.  [os.path.isfile] never raises; [os.path.getmtime] may.
    [max] keeps the first of the files with the greatest key. *)
Fixpoint max_mtime (best : dir_entry) (best_time : Z) (files : list dir_entry) : res dir_entry :=
  match files with
  | [] => Ok best
  | f :: files' =>
      t ← entry_mtime f;
      if (best_time <? t)%Z then max_mtime f t files' else max_mtime best best_time files'
  end.

Definition newest_entry (listing : res (list dir_entry)) : res (option dir_entry) :=
  names ← listing;
  let files := filter (λ f, is_journal (entry_name f) = true) names in
  let files := filter (λ f, entry_is_file f = true) files in
  match files with
  | [] => Ok None
  | f :: files' => t ← entry_mtime f; best ← max_mtime f t files'; Ok (Some best)
  end.

Definition get_newest_file (listing : res (list dir_entry)) (self : SystemOrrery)
    : option string * SystemOrrery :=
  match newest_entry listing with
  | Ok None => (None, self)
  | Ok (Some f) => (Some (path_join directory (entry_name f)), self)
  | Raise e => (None, logging ERROR ("Failed to get newest file: " ++ str_exn e) self)
  end.

(** [isinstance(e, FileNotFoundError)]: the class is none of those
    [exn] names, so it comes as an [OtherException]. *)
Definition is_file_not_found (e : exn) : bool :=
  match e with
  | OtherException cls _ => String.eqb cls "FileNotFoundError"
  | _ => false
  end.

(** An exception reaches the [try] around the [with] block opened on
    [f]: [except FileNotFoundError] logs it, and the outer loop goes on
    with its next turn; any other exception leaves [monitor_logs]. *)
Definition leave_file (f : string) (e : exn) (self : SystemOrrery)
    : watcher * SystemOrrery :=
  if is_file_not_found e then (Polling, logging ERROR ("File not found: " ++ f) self)
  else (Crashed e, self).

(** One turn of a loop of [monitor_logs]: at [Polling], one iteration of
    the outer [while self.running] up to the [open]; at [Tailing], one
    iteration of the inner [while self.running].  When the inner loop
    ends, control is back at the outer loop's test.  The inner
    [except json.JSONDecodeError] is the [Malformed] turn: it also
    surrounds the call of [process_log_entry], which raises [KeyError] or
    [TypeError] only. *)
Definition monitor_step (w : world) (st : watcher) (self : SystemOrrery)
    : watcher * SystemOrrery :=
  match st with
  | Polling =>
      if running w then
        match get_newest_file (listing w) self with
        | (Some f, self1) =>
            let self2 := logging INFO ("Reading from file: " ++ f) self1 in
            match opening w with
            | Opened => (Tailing f, self2)
            | NotFound => (Polling, logging ERROR ("File not found: " ++ f) self2)
            | OpenError e => leave_file f e self2
            end
        | (None, self1) => (Polling, self1)
        end
      else (Returned, self)
  | Tailing f =>
      if running w then
        match next_line w with
        | NoLine => (Tailing f, self)
        | ReadError e => leave_file f e self
        | Malformed line msg =>
            (Tailing f,
             logging ERROR ("Problematic line: " ++ line)
               (logging ERROR ("Failed to parse log line: " ++ msg) self))
        | Entry data =>
            match process_log_entry data self with
            | (Ok _, self1) => (Tailing f, self1)
            | (Raise e, self1) => leave_file f e self1
            end
        end
      else (Polling, self)
  | Returned | Crashed _ => (st, self)
  end.

(** An observation with the flag up in which reading does not fail with
    a [FileNotFoundError]. *)
Definition steady (w : world) : Prop :=
  running w = true ∧ ∀ e, next_line w = ReadError e → is_file_not_found e = false.

(** The watcher over a sequence of observations. *)
Fixpoint monitor_logs (ws : list world) (st : watcher) (self : SystemOrrery)
    : watcher * SystemOrrery :=
  match ws with
  | [] => (st, self)
  | w :: ws' => let '(st1, self1) := monitor_step w st self in monitor_logs ws' st1 self1
  end.

(** ** Parent chains *)

(** The body [get_body_position] recurses on, if it does. *)
Definition parent_of (self : SystemOrrery) (body : CelestialBody) : option CelestialBody :=
  match parent_id body with
  | None => None
  | Some p => if (p =? 0)%Z then None else bodies self !! KInt p
  end.

(** One step up the chain, on the keys of [self.bodies]: from the key of
    a body to the key its [parent_id] resolves to. *)
Definition parent_key (self : SystemOrrery) (k : key) : option key :=
  body ← bodies self !! k;
  p ← parent_id body;
  if (p =? 0)%Z then None
  else match bodies self !! KInt p with Some _ => Some (KInt p) | None => None end.

(** [n] steps up the chain. *)
Fixpoint ancestor_key (self : SystemOrrery) (n : nat) (k : key) : option key :=
  match n with
  | O => Some k
  | S n' => k' ← parent_key self k; ancestor_key self n' k'
  end.

(** No chain of parents comes back to a body it left. *)
Definition acyclic (self : SystemOrrery) : Prop :=
  ∀ k n, ancestor_key self (S n) k ≠ Some k.

(** ** The effect of a sequence of events, event by event *)

(** What an event puts in [self.bodies]: the key and the record, when it
    is a Scan event whose [try] block ran to its end. *)
Definition stored_entry (data : json) : option (key * CelestialBody) :=
  match data with
  | JObj d =>
      let id := dict_get d "BodyID" (JInt 0) in
      match d !! "event", scan_body d id, py_key id with
      | Some ev, Ok body, Ok k => if py_eq_str ev "Scan" then Some (k, body) else None
      | _, _, _ => None
      end
  | _ => None
  end.

(** [m[k] = body] for a pair [(k, body)]. *)
Definition store (m : gmap key CelestialBody) (kb : key * CelestialBody)
    : gmap key CelestialBody :=
  <[kb.1 := kb.2]> m.

(** What an event adds to the log: the error of a Scan event whose [try]
    block raised. *)
Definition error_entry (data : json) : option log_record :=
  match data with
  | JObj d =>
      let id := dict_get d "BodyID" (JInt 0) in
      match d !! "event" with
      | Some ev =>
          if py_eq_str ev "Scan" then
            match scan_body d id, py_key id with
            | Raise e, _ | Ok _, Raise e =>
                Some (ERROR, "Error processing body data: " ++ str_exn e)
            | Ok _, Ok _ => None
            end
          else None
      | None => None
      end
  | _ => None
  end.

(** A decoded line [process_log_entry] can read the event of. *)
Definition has_event (data : json) : Prop :=
  ∃ d, data = JObj d ∧ is_Some (d !! "event").

(** The numeric fields [scan_body] reads of an event: of the two mass
    fields, the one that goes with its kind. *)
Definition read_fields (data : gmap string json) : list string :=
  ["SemiMajorAxis"; "Eccentricity"; "OrbitalInclination"; "OrbitalPeriod";
   "AscendingNode"; "MeanAnomaly"; "Radius"; mass_field data;
   "DistanceFromArrivalLS"; "SurfaceTemperature"; "SurfaceGravity"].

(** Every record of the mapping sits under the key of its own
    [body_id]. *)
Definition keyed (self : SystemOrrery) : Prop :=
  map_Forall (λ k body, py_key (body_id body) = Ok k) (bodies self).

(** Every listed star is a key of the mapping. *)
Definition stars_known (self : SystemOrrery) : Prop :=
  Forall (λ id, ∃ k, py_key id = Ok k ∧ k ∈ dom (bodies self)) (stars self).

(** The decoded lines among a sequence of observations. *)
Definition entries_of (ws : list world) : list json :=
  omap (λ w, match next_line w with Entry data => Some data | _ => None end) ws.

(** An observation with the flag up and a read that does not raise. *)
Definition readable (w : world) : Prop :=
  running w = true ∧ ∀ e, next_line w ≠ ReadError e.

(** The files [get_newest_file] chooses among: the names of the listing
    that look like journals and are regular files, in listing order. *)
Definition journal_files (names : list dir_entry) : list dir_entry :=
  filter (λ f, entry_is_file f = true)
    (filter (λ f, is_journal (entry_name f) = true) names).

(** A file whose modification time can be read and is before [t], or
    not after [t]. *)
Definition older_than (t : Z) (g : dir_entry) : Prop :=
  ∃ tg, entry_mtime g = Ok tg ∧ (tg < t)%Z.

Definition not_newer_than (t : Z) (g : dir_entry) : Prop :=
  ∃ tg, entry_mtime g = Ok tg ∧ (tg ≤ t)%Z.

(** ** Positions along a chain of parents *)

(** [path] lists the bodies [get_body_position] recurses on from [body]:
    its parent, the parent of that one, and so on up to a body it does
    not recurse from. *)
Fixpoint lineage (self : SystemOrrery) (body : CelestialBody) (path : list CelestialBody)
    : Prop :=
  match path with
  | [] => parent_of self body = None
  | parent :: path' => parent_of self body = Some parent ∧ lineage self parent path'
  end.

(** The canvas centre with the offsets of the bodies of a chain added
    to it from the top down, the topmost body's own offset left out. *)
Fixpoint position_sum (self : SystemOrrery) (body : CelestialBody)
    (path : list CelestialBody) : res (float * float) :=
  match path with
  | [] => Ok (canvas_center self)
  | parent :: path' =>
      '(parent_x, parent_y) ← position_sum self parent path';
      '(offset_x, offset_y) ← (calculate_position body (animation_time self) self).1;
      Ok ((parent_x + offset_x)%float, (parent_y + offset_y)%float)
  end.

(** * Position resolution: theorems *)

Lemma get_body_position_unfold depth body self :
  get_body_position (S depth) body self =
    match parent_of self body with
    | None => Some (Ok (canvas_center self), self)
    | Some parent =>
        match get_body_position depth parent self with
        | None => None
        | Some (Raise e, self1) => Some (Raise e, self1)
        | Some (Ok (parent_x, parent_y), self1) =>
            match calculate_position body (animation_time self1) self1 with
            | (Raise e, self2) => Some (Raise e, self2)
            | (Ok (offset_x, offset_y), self2) =>
                Some (Ok ((parent_x + offset_x)%float, (parent_y + offset_y)%float), self2)
            end
        end
    end.
Proof.
  unfold parent_of. simpl.
  destruct (parent_id body) as [p|]; [|reflexivity].
  destruct (p =? 0)%Z; [reflexivity|].
  destruct (bodies self !! KInt p); reflexivity.
Qed.

(** More depth does not change an answer. *)
Lemma get_body_position_mono (depth depth' : nat) body self r :
  (depth ≤ depth')%nat →
  get_body_position depth body self = Some r →
  get_body_position depth' body self = Some r.
Proof.
  revert depth' body r. induction depth as [|d IH]; intros depth' body r Hle Hr; [discriminate|].
  destruct depth' as [|d']; [lia|].
  rewrite get_body_position_unfold in Hr. rewrite get_body_position_unfold.
  destruct (parent_of self body) as [parent|]; [|exact Hr].
  destruct (get_body_position d parent self) as [rp|] eqn:Hp; [|discriminate].
  rewrite (IH d' parent rp); [exact Hr | lia | exact Hp].
Qed.

(** C1: a body whose parent id is present, is not 0 and is a key of the
    body mapping is placed at its parent's resolved position plus its own
    [calculate_position] offset at the current animation time; the
    parent's position is resolved by the same function, one level up. *)
Theorem get_body_position_child depth body p parent self
    parent_x parent_y self1 offset_x offset_y self2 :
  parent_id body = Some p →
  p ≠ 0%Z →
  bodies self !! KInt p = Some parent →
  get_body_position depth parent self = Some (Ok (parent_x, parent_y), self1) →
  calculate_position body (animation_time self1) self1 = (Ok (offset_x, offset_y), self2) →
  get_body_position (S depth) body self =
    Some (Ok ((parent_x + offset_x)%float, (parent_y + offset_y)%float), self2).
Proof.
  intros Hp Hnz Hmap Hparent Hoff.
  rewrite get_body_position_unfold. unfold parent_of. rewrite Hp.
  destruct (Z.eqb_spec p 0) as [->|_]; [contradiction|].
  rewrite Hmap, Hparent, Hoff. reflexivity.
Qed.

(** C2: a body with no parent id, with parent id 0, or with a parent id
    that is no key of the body mapping resolves, without an exception and
    whatever [calculate_position] is, to the canvas centre moved by the pan
    offset; the zoom factor has no part in it. *)
Theorem get_body_position_root depth body self :
  parent_id body = None ∨ parent_id body = Some 0%Z ∨
    (∃ p, parent_id body = Some p ∧ bodies self !! KInt p = None) →
  get_body_position (S depth) body self =
    Some (Ok ((Z2float (canvas_width self) / 2 + center_x self)%float,
              (Z2float (canvas_height self) / 2 + center_y self)%float), self)
  ∧ ∀ z, get_body_position (S depth) body (set_zoom z self) =
    Some (Ok ((Z2float (canvas_width self) / 2 + center_x self)%float,
              (Z2float (canvas_height self) / 2 + center_y self)%float), set_zoom z self).
Proof.
  intros H.
  assert (Hroot : ∀ s, bodies s = bodies self → parent_of s body = None).
  { intros s Hs. unfold parent_of. rewrite Hs.
    destruct H as [-> | [-> | (p & -> & Hp)]]; [reflexivity..|].
    rewrite Hp. destruct (p =? 0)%Z; reflexivity. }
  split; [|intros z]; rewrite get_body_position_unfold, Hroot; reflexivity.
Qed.

(** *** Termination *)

Lemma parent_key_parent_of self k body k' :
  bodies self !! k = Some body →
  parent_key self k = Some k' →
  ∃ p parent, k' = KInt p ∧ bodies self !! KInt p = Some parent
              ∧ parent_of self body = Some parent.
Proof.
  unfold parent_key, parent_of. intros -> Hk. simpl in Hk.
  destruct (parent_id body) as [p|]; simpl in Hk; [|discriminate].
  destruct (p =? 0)%Z; [discriminate|].
  destruct (bodies self !! KInt p) as [parent|] eqn:Hp; [|discriminate].
  injection Hk as <-. eauto.
Qed.

Lemma parent_of_parent_key self k body parent :
  bodies self !! k = Some body →
  parent_of self body = Some parent →
  ∃ p, parent_key self k = Some (KInt p) ∧ bodies self !! KInt p = Some parent.
Proof.
  unfold parent_key, parent_of. intros -> Hp. simpl.
  destruct (parent_id body) as [p|]; simpl; [|discriminate].
  destruct (p =? 0)%Z; [discriminate|].
  exists p. rewrite Hp. auto.
Qed.

Lemma ancestor_key_snoc self n k :
  ancestor_key self (S n) k = k' ← ancestor_key self n k; parent_key self k'.
Proof.
  revert k. induction n as [|n IH]; intros k.
  - simpl. destruct (parent_key self k); reflexivity.
  - change (ancestor_key self (S (S n)) k)
      with (k' ← parent_key self k; ancestor_key self (S n) k').
    destruct (parent_key self k) as [k1|] eqn:Hk; simpl; rewrite Hk; simpl; [|reflexivity].
    apply IH.
Qed.

(** Every key on a chain is a key of the mapping, the start apart. *)
Lemma ancestor_key_dom self n k k' :
  ancestor_key self (S n) k = Some k' → k' ∈ dom (bodies self).
Proof.
  rewrite ancestor_key_snoc.
  destruct (ancestor_key self n k) as [k1|]; simpl; [|discriminate].
  unfold parent_key.
  destruct (bodies self !! k1) as [b|]; simpl; [|discriminate].
  destruct (parent_id b) as [p|]; simpl; [|discriminate].
  destruct (p =? 0)%Z; [discriminate|].
  destruct (bodies self !! KInt p) eqn:Hp; [|discriminate].
  intros [= <-]. apply elem_of_dom. rewrite Hp. eauto.
Qed.

(** A chain that stays inside a set of [n] keys and never comes back is
    resolved within depth [n]. *)
Lemma get_body_position_bounded self :
  acyclic self →
  ∀ (n : nat) (X : gset key) k body,
    (size X ≤ n)%nat →
    bodies self !! k = Some body →
    (∀ m k', ancestor_key self m k = Some k' → k' ∈ X) →
    is_Some (get_body_position n body self).
Proof.
  clear float_of_str directory.
  intros Hacyclic. induction n as [|n IH]; intros X k body Hsize Hk Hin.
  - assert (k ∈ X) as Hmem by (apply (Hin O); reflexivity).
    assert (size X ≠ 0)%nat; [|lia].
    apply size_non_empty_iff. set_solver.
  - rewrite get_body_position_unfold.
    destruct (parent_of self body) as [parent|] eqn:Hparent; [|eauto].
    destruct (parent_of_parent_key _ _ _ _ Hk Hparent) as (p & Hstep & Hp).
    destruct (IH (X ∖ {[k]}) (KInt p) parent) as [[r self1] Hr].
    + assert (k ∈ X) as Hmem by (apply (Hin O); reflexivity).
      rewrite size_difference by set_solver. rewrite size_singleton.
      assert (size X ≠ 0)%nat by (apply size_non_empty_iff; set_solver). lia.
    + exact Hp.
    + intros m k' Hm.
      assert (ancestor_key self (S m) k = Some k') as Hm'.
      { simpl. rewrite Hstep. exact Hm. }
      apply elem_of_difference. split; [exact (Hin _ _ Hm')|].
      intros ->%elem_of_singleton. exact (Hacyclic _ _ Hm').
    + rewrite Hr. destruct r as [[px py]|e]; [|eauto].
      destruct (calculate_position body (animation_time self1) self1) as [[[ox oy]|e] self2];
        eauto.
Qed.

(** A body on a cycle is never resolved, at any depth. *)
Lemma get_body_position_cycle self n :
  ∀ (depth : nat) k body,
    bodies self !! k = Some body →
    ancestor_key self (S n) k = Some k →
    get_body_position depth body self = None.
Proof.
  induction depth as [|depth IH]; intros k body Hk Hcycle; [reflexivity|].
  rewrite get_body_position_unfold.
  assert (∃ k1, parent_key self k = Some k1 ∧ ancestor_key self n k1 = Some k)
    as (k1 & Hstep & Hrest).
  { simpl in Hcycle. destruct (parent_key self k) as [k1|]; [|discriminate]. eauto. }
  destruct (parent_key_parent_of _ _ _ _ Hk Hstep) as (p & parent & -> & Hp & ->).
  rewrite (IH (KInt p) parent Hp); [reflexivity|].
  rewrite ancestor_key_snoc, Hrest. exact Hstep.
Qed.

(** C10: when no parent chain of the mapping comes back to a body it
    left, every body (of the mapping or not) is resolved within a
    recursion depth of the number of bodies plus one; and a body that lies
    on a parent cycle is not resolved at any depth: nothing in the
    recursion detects the cycle. *)
Theorem get_body_position_terminates self :
  (acyclic self →
   ∀ body, is_Some (get_body_position (S (size (bodies self))) body self))
  ∧ (∀ k body n,
       bodies self !! k = Some body →
       ancestor_key self (S n) k = Some k →
       ∀ depth, get_body_position depth body self = None).
Proof.
  split.
  - intros Hacyclic body. rewrite get_body_position_unfold.
    destruct (parent_of self body) as [parent|] eqn:Hparent; [|eauto].
    assert (∃ p, bodies self !! KInt p = Some parent) as [p Hp].
    { unfold parent_of in Hparent. destruct (parent_id body) as [p|]; [|discriminate].
      destruct (p =? 0)%Z; [discriminate|]. eauto. }
    destruct (get_body_position_bounded self Hacyclic (size (bodies self))
                (dom (bodies self)) (KInt p) parent) as [[r self1] Hr].
    + rewrite size_dom. lia.
    + exact Hp.
    + intros [|m] k' Hm.
      * injection Hm as <-. apply elem_of_dom. eauto.
      * exact (ancestor_key_dom _ _ _ _ Hm).
    + rewrite Hr. destruct r as [[px py]|e]; [|eauto].
      destruct (calculate_position body (animation_time self1) self1) as [[[ox oy]|e] self2];
        eauto.
  - intros k body n Hk Hcycle depth.
    exact (get_body_position_cycle self n depth k body Hk Hcycle).
Qed.

(** *** Reading without writing *)

Section ReadOnly.

(** The spec calls the missing [calculate_position] a pure function: it
    leaves [self] as it is. *)
Hypothesis calculate_position_pure :
  ∀ body t self, (calculate_position body t self).2 = self.

Lemma get_body_position_pure depth body self r self' :
  get_body_position depth body self = Some (r, self') → self' = self.
Proof using calculate_position_pure.
  revert body r self'. induction depth as [|depth IH]; intros body r self' H; [discriminate|].
  rewrite get_body_position_unfold in H.
  destruct (parent_of self body) as [parent|]; [|congruence].
  destruct (get_body_position depth parent self) as [[rp self1]|] eqn:Hp; [|discriminate].
  apply IH in Hp as ->.
  destruct rp as [[px py]|e]; [|congruence].
  pose proof (calculate_position_pure body (animation_time self) self) as Hpure.
  destruct (calculate_position body (animation_time self) self) as [[[ox oy]|e] self2];
    simpl in Hpure; congruence.
Qed.

(** C4: a call of [get_body_position] that returns leaves the state
    (body mapping, pan offset, zoom, canvas size, animation time and all
    the rest) as it found it, and a second call on the same body in the
    state the first one left returns the same coordinates. *)
Theorem get_body_position_idempotent depth body self r self1 :
  get_body_position depth body self = Some (r, self1) →
  self1 = self ∧ get_body_position depth body self1 = Some (r, self1).
Proof using calculate_position_pure.
  intros H. pose proof (get_body_position_pure _ _ _ _ _ H) as ->.
  split; [reflexivity | exact H].
Qed.

End ReadOnly.

(** * The model builder: theorems *)

Lemma py_eq_str_Scan ev : py_eq_str ev "Scan" = true ↔ ev = JStr "Scan".
Proof.
  destruct ev; simpl; try (split; [discriminate | congruence]).
  rewrite String.eqb_eq. split; congruence.
Qed.

(** The two ways the [try] block ends. *)
Lemma scan_try_ok d id self body k :
  scan_body d id = Ok body →
  py_key id = Ok k →
  scan_try d id self =
    (Ok (),
     let self1 := set_bodies (<[k := body]> (bodies self)) self in
     if dict_contains d "StarType" then set_stars (stars self ++ [id]) self1 else self1).
Proof.
  intros Hbody Hkey. unfold scan_try, dict_setitem. rewrite Hbody, Hkey. reflexivity.
Qed.

Lemma scan_try_raise d id self e self1 :
  scan_try d id self = (Raise e, self1) →
  self1 = self ∧ (scan_body d id = Raise e ∨ (is_Ok (scan_body d id) ∧ py_key id = Raise e)).
Proof.
  unfold scan_try, dict_setitem.
  destruct (scan_body d id) as [body|e1]; [|intros [= -> ->]; auto].
  destruct (py_key id) as [k|e1]; simpl; [discriminate|].
  intros [= -> ->]. simpl. auto.
Qed.

Lemma process_scan d self :
  is_scan d →
  process_log_entry (JObj d) self =
    (Ok (),
     after update_body_list (after draw_system
       match scan_try d (dict_get d "BodyID" (JInt 0)) self with
       | (Ok _, self') => self'
       | (Raise e, self') => logging ERROR ("Error processing body data: " ++ str_exn e) self'
       end)).
Proof.
  intros Hscan. unfold process_log_entry, dict_getitem, is_scan in *.
  rewrite Hscan. reflexivity.
Qed.

(** C5: the record built from a Scan event has kind ["Star"] when the
    event has a [StarType] field and ["Planet"] when it has none (so it is
    one of Star, Planet, Moon, and Star exactly when the field is there);
    this is the record [process_log_entry] stores under the event's id. *)
Theorem scan_kind d self body k :
  is_scan d →
  scan_body d (dict_get d "BodyID" (JInt 0)) = Ok body →
  py_key (dict_get d "BodyID" (JInt 0)) = Ok k →
  bodies (process_log_entry (JObj d) self).2 !! k = Some body
  ∧ (type body = "Star" ∨ type body = "Planet" ∨ type body = "Moon")
  ∧ (type body = "Star" ↔ is_Some (d !! "StarType")).
Proof.
  intros Hscan Hbody Hkey.
  rewrite (process_scan d self Hscan), (scan_try_ok _ _ _ _ _ Hbody Hkey). simpl.
  assert (type body = if dict_contains d "StarType" then "Star" else "Planet") as Htype.
  { unfold scan_body in Hbody.
    repeat match type of Hbody with
           | (mbind _ ?m = Ok _) => destruct m; simpl in Hbody; [|discriminate]
           end.
    injection Hbody as <-. reflexivity. }
  split; [|split].
  - destruct (dict_contains d "StarType"); simpl; apply lookup_insert_eq.
  - rewrite Htype. destruct (dict_contains d "StarType"); auto.
  - rewrite Htype. unfold dict_contains.
    destruct (d !! "StarType"); split; intros H;
      first [reflexivity | discriminate | by eauto | by destruct H].
Qed.

(** C7: when the [try] block of a Scan event raises, the state at that
    point is the state before the event; [process_log_entry] then logs the
    error and returns normally, with the body mapping and the star list as
    they were, and the events that follow are processed from there. *)
Theorem scan_exception_atomic d self e self1 :
  is_scan d →
  scan_try d (dict_get d "BodyID" (JInt 0)) self = (Raise e, self1) →
  self1 = self
  ∧ ∃ self',
      process_log_entry (JObj d) self = (Ok (), self')
      ∧ bodies self' = bodies self
      ∧ stars self' = stars self
      ∧ log self' = (log self ++ [(ERROR, ("Error processing body data: " ++ str_exn e)%string)])%list
      ∧ ∀ rest, process_entries (JObj d :: rest) self = process_entries rest self'.
Proof.
  intros Hscan Hraise.
  destruct (scan_try_raise _ _ _ _ _ Hraise) as [-> _].
  split; [reflexivity|].
  eexists. split; [|split; [|split; [|split]]].
  - rewrite (process_scan d self Hscan), Hraise. reflexivity.
  - reflexivity.
  - reflexivity.
  - reflexivity.
  - intros rest. cbn [process_entries].
    rewrite (process_scan d self Hscan), Hraise. reflexivity.
Qed.

(** What one event does to the star list. *)
Lemma process_log_entry_stars data self self' :
  process_log_entry data self = (Ok (), self') →
  stars self' = (stars self ++ option_list (star_entry data))%list.
Proof.
  unfold process_log_entry, star_entry, dict_getitem.
  destruct data as [| | | | | |d]; try discriminate.
  destruct (d !! "event") as [ev|]; [|discriminate].
  intros [= <-]. simpl.
  destruct (py_eq_str ev "Scan") eqn:Hev.
  - unfold scan_try, dict_setitem, dict_contains.
    destruct (scan_body d (dict_get d "BodyID" (JInt 0))) as [body|e]; simpl.
    + destruct (py_key (dict_get d "BodyID" (JInt 0))) as [k|e]; simpl.
      * destruct (d !! "StarType"); simpl; [reflexivity | by rewrite app_nil_r].
      * destruct (d !! "StarType"); simpl; by rewrite app_nil_r.
    + destruct (d !! "StarType"); simpl; by rewrite app_nil_r.
  - simpl. destruct (d !! "StarType"); [|by rewrite app_nil_r].
    destruct (scan_body d (dict_get d "BodyID" (JInt 0))); [|by rewrite app_nil_r].
    destruct (py_key (dict_get d "BodyID" (JInt 0))); by rewrite app_nil_r.
Qed.

Lemma process_entries_stars events : ∀ self self',
  process_entries events self = (Ok (), self') →
  stars self' = (stars self ++ omap star_entry events)%list.
Proof.
  induction events as [|data rest IH]; intros self self' H; cbn [process_entries] in H.
  - injection H as <-. by rewrite app_nil_r.
  - destruct (process_log_entry data self) as [[[]|e] self1] eqn:H1; [|discriminate].
    rewrite (IH _ _ H), (process_log_entry_stars _ _ _ H1), <- app_assoc. f_equal.
    simpl. destruct (star_entry data); reflexivity.
Qed.

(** C9, amended: processing a sequence of Scan events always runs to its
    end, and the star list is then the list before it followed by the
    [BodyID] of every event that carried a [StarType] and was stored, in
    the order processed, one entry for each such event. *)
Theorem stars_after_scans events self :
  Forall (λ data, ∃ d, data = JObj d ∧ is_scan d) events →
  ∃ self',
    process_entries events self = (Ok (), self')
    ∧ stars self' = (stars self ++ omap star_entry events)%list.
Proof.
  intros Hscans.
  assert (∃ self', process_entries events self = (Ok (), self')) as [self' H].
  { revert self. induction Hscans as [|data rest (d & -> & Hscan) _ IH]; intros self.
    - eexists. reflexivity.
    - cbn [process_entries]. rewrite (process_scan d self Hscan). apply IH. }
  exists self'. split; [exact H | exact (process_entries_stars _ _ _ H)].
Qed.

(** *** Defaults *)

Lemma float_field_total d f :
  convertible d f →
  ∃ x, float_field d f = Ok x ∧ (d !! f = None → x = 0%float).
Proof.
  unfold convertible, float_field, dict_get. intros H. destruct (d !! f) as [v|].
  - specialize (H v eq_refl). destruct (py_float v) as [x|]; [|contradiction].
    exists x. split; [reflexivity | discriminate].
  - exists 0%float. split; reflexivity.
Qed.

Lemma radians_field_total d f :
  convertible d f →
  ∃ x, radians_field d f = Ok x ∧ (d !! f = None → x = 0%float).
Proof.
  intros H. destruct (float_field_total d f H) as (x & Hx & Hdefault).
  unfold radians_field. rewrite Hx. simpl. eexists. split; [reflexivity|].
  intros ->%Hdefault. reflexivity.
Qed.

Lemma mass_field_numeric d : mass_field d ∈ numeric_fields.
Proof.
  clear float_of_str directory.
  unfold mass_field, numeric_fields. destruct (dict_contains d "StarType"); set_solver.
Qed.

Lemma dict_get_absent d k default : d !! k = None → dict_get d k default = default.
Proof. unfold dict_get. by intros ->. Qed.

(** C6, amended: a Scan event that has a [BodyName], a hashable [BodyID]
    (or none), a [Parents] value [get_parent_id] accepts and numbers in the
    numeric fields it has is stored as a body record, in which every field
    the event lacks has its default: id 0, number 0.0, empty string,
    [False]. *)
Theorem scan_defaults d self :
  is_scan d →
  is_Some (d !! "BodyName") →
  is_Ok (get_parent_id (dict_get d "Parents" (JList []))) →
  is_Ok (py_key (dict_get d "BodyID" (JInt 0))) →
  (∀ f, f ∈ numeric_fields → convertible d f) →
  ∃ k body,
    py_key (dict_get d "BodyID" (JInt 0)) = Ok k
    ∧ bodies (process_log_entry (JObj d) self).2 !! k = Some body
    ∧ (d !! "BodyID" = None → k = KInt 0 ∧ body_id body = JInt 0)
    ∧ (d !! "SemiMajorAxis" = None → semi_major_axis body = 0%float)
    ∧ (d !! "Eccentricity" = None → eccentricity body = 0%float)
    ∧ (d !! "OrbitalInclination" = None → orbital_inclination body = 0%float)
    ∧ (d !! "OrbitalPeriod" = None → orbital_period body = 0%float)
    ∧ (d !! "AscendingNode" = None → ascending_node body = 0%float)
    ∧ (d !! "MeanAnomaly" = None → mean_anomaly body = 0%float)
    ∧ (d !! "Radius" = None → radius body = 0%float)
    ∧ (d !! mass_field d = None → mass body = 0%float)
    ∧ (d !! "DistanceFromArrivalLS" = None → distance_from_arrival body = 0%float)
    ∧ (d !! "SurfaceTemperature" = None → surface_temp body = 0%float)
    ∧ (d !! "SurfaceGravity" = None → surface_gravity body = 0%float)
    ∧ (d !! "PlanetClass" = None → planet_class body = JStr "")
    ∧ (d !! "AtmosphereType" = None → atmosphere_type body = JStr "")
    ∧ (d !! "TerraformState" = None → terraform_state body = JStr "")
    ∧ (d !! "Landable" = None → is_landable body = JBool false).
Proof.
  intros Hscan [nm Hname] Hparent Hkey Hnum.
  destruct (get_parent_id (dict_get d "Parents" (JList []))) as [parent|] eqn:Eparent;
    [clear Hparent | contradiction].
  destruct (py_key (dict_get d "BodyID" (JInt 0))) as [k|] eqn:Ekey;
    [clear Hkey | contradiction].
  assert (convertible d (mass_field d)) as Hmass by apply Hnum, mass_field_numeric.
  assert (Forall (convertible d) numeric_fields) as Hall by (apply Forall_forall, Hnum).
  unfold numeric_fields in Hall.
  repeat match type of Hall with
         | Forall _ (_ :: _) => apply Forall_cons in Hall as [? Hall]
         end.
  clear Hall Hnum.
  destruct (float_field_total d "SemiMajorAxis") as (sma & Esma & Dsma); [assumption|].
  destruct (float_field_total d "Eccentricity") as (ecc & Eecc & Decc); [assumption|].
  destruct (radians_field_total d "OrbitalInclination") as (inc & Einc & Dinc);
    [assumption|].
  destruct (float_field_total d "OrbitalPeriod") as (per & Eper & Dper); [assumption|].
  destruct (radians_field_total d "AscendingNode") as (node & Enode & Dnode);
    [assumption|].
  destruct (radians_field_total d "MeanAnomaly") as (anom & Eanom & Danom); [assumption|].
  destruct (float_field_total d "Radius") as (rad & Erad & Drad); [assumption|].
  destruct (float_field_total d (mass_field d)) as (m & Em & Dm); [assumption|].
  destruct (float_field_total d "DistanceFromArrivalLS") as (dist & Edist & Ddist);
    [assumption|].
  destruct (float_field_total d "SurfaceTemperature") as (temp & Etemp & Dtemp);
    [assumption|].
  destruct (float_field_total d "SurfaceGravity") as (grav & Egrav & Dgrav);
    [assumption|].
  assert (∃ body, scan_body d (dict_get d "BodyID" (JInt 0)) = Ok body
            ∧ body_id body = dict_get d "BodyID" (JInt 0)
            ∧ semi_major_axis body = sma ∧ eccentricity body = ecc
            ∧ orbital_inclination body = inc ∧ orbital_period body = per
            ∧ ascending_node body = node ∧ mean_anomaly body = anom
            ∧ radius body = rad ∧ mass body = m
            ∧ distance_from_arrival body = dist
            ∧ surface_temp body = temp ∧ surface_gravity body = grav
            ∧ planet_class body = dict_get d "PlanetClass" (JStr "")
            ∧ atmosphere_type body = dict_get d "AtmosphereType" (JStr "")
            ∧ terraform_state body = dict_get d "TerraformState" (JStr "")
            ∧ is_landable body = dict_get d "Landable" (JBool false))
    as (body & Ebody & Hid & Hsma & Hecc & Hinc & Hper & Hnode & Hanom & Hrad & Hm
          & Hdist & Htemp & Hgrav & Hclass & Hatm & Hterra & Hland).
  { unfold scan_body, dict_getitem.
    rewrite Hname, Eparent, Esma, Eecc, Einc, Eper, Enode, Eanom, Erad, Em, Edist,
      Etemp, Egrav.
    eexists. split; [reflexivity|]. simpl. repeat split. }
  exists k, body. split; [reflexivity|]. split.
  { rewrite (process_scan d self Hscan), (scan_try_ok _ _ _ _ _ Ebody Ekey). simpl.
    destruct (dict_contains d "StarType"); simpl; apply lookup_insert_eq. }
  split.
  { intros Habsent. rewrite Hid. rewrite (dict_get_absent _ _ _ Habsent) in Ekey |- *.
    simpl in Ekey. split; [congruence | reflexivity]. }
  rewrite Hsma, Hecc, Hinc, Hper, Hnode, Hanom, Hrad, Hm, Hdist, Htemp, Hgrav,
    Hclass, Hatm, Hterra, Hland.
  repeat split; try assumption; intros Habsent; by rewrite dict_get_absent.
Qed.

(** * The log watcher: theorems *)

(** [max] returns one of the files, with a modification time no other
    file exceeds. *)
Lemma max_mtime_spec files : ∀ best best_time r,
  entry_mtime best = Ok best_time →
  max_mtime best best_time files = Ok r →
  (r = best ∨ r ∈ files)
  ∧ ∃ t, entry_mtime r = Ok t ∧ (best_time ≤ t)%Z
         ∧ ∀ g, g ∈ files → ∃ tg, entry_mtime g = Ok tg ∧ (tg ≤ t)%Z.
Proof.
  induction files as [|f files IH]; intros best bt r Hbest H; simpl in H.
  - injection H as <-. split; [auto|]. exists bt. split; [exact Hbest|]. split; [lia|].
    intros g Hg. inversion Hg.
  - destruct (entry_mtime f) as [tf|] eqn:Hf; simpl in H; [|discriminate].
    destruct (Z.ltb_spec bt tf) as [Hlt|Hge].
    + destruct (IH _ _ _ Hf H) as ([-> | Hin] & t & Ht & Hle & Hall).
      * split; [right; left|].
        exists t. split; [exact Ht|]. split; [lia|].
        intros g [-> | Hg]%elem_of_cons; [eauto | auto].
      * split; [right; by right|].
        exists t. split; [exact Ht|]. split; [lia|].
        intros g [-> | Hg]%elem_of_cons; [eauto | auto].
    + destruct (IH _ _ _ Hbest H) as (Hr & t & Ht & Hle & Hall).
      split; [destruct Hr; [auto | right; by right]|].
      exists t. split; [exact Ht|]. split; [exact Hle|].
      intros g [-> | Hg]%elem_of_cons; [|auto].
      exists tf. split; [exact Hf | lia].
Qed.

Lemma newest_entry_spec names best :
  newest_entry (Ok names) = Ok (Some best) →
  best ∈ names ∧ is_journal (entry_name best) = true ∧ entry_is_file best = true
  ∧ ∃ t, entry_mtime best = Ok t
         ∧ ∀ g, g ∈ names → is_journal (entry_name g) = true → entry_is_file g = true →
                ∃ tg, entry_mtime g = Ok tg ∧ (tg ≤ t)%Z.
Proof.
  clear float_of_str directory.
  unfold newest_entry. simpl.
  set (files := filter (λ f, entry_is_file f = true)
                  (filter (λ f, is_journal (entry_name f) = true) names)).
  assert (∀ g, g ∈ files ↔
            g ∈ names ∧ is_journal (entry_name g) = true ∧ entry_is_file g = true) as Hfiles.
  { intros g. unfold files. rewrite !list_elem_of_filter. tauto. }
  clearbody files. destruct files as [|f files]; [discriminate|].
  destruct (entry_mtime f) as [tf|] eqn:Hf; simpl; [|discriminate].
  destruct (max_mtime f tf files) as [r|] eqn:Hmax; simpl; [|discriminate].
  intros [= <-].
  destruct (max_mtime_spec _ _ _ _ Hf Hmax) as (Hr & t & Ht & Hle & Hall).
  assert (r ∈ f :: files) as Hin by (destruct Hr as [-> | ?]; [left | by right]).
  apply Hfiles in Hin as (? & ? & ?). do 3 (split; [assumption|]).
  exists t. split; [exact Ht|].
  intros g Hg Hj Hfile.
  assert (g ∈ f :: files) as [-> | Hg']%elem_of_cons by (apply Hfiles; auto).
  - exists tf. auto.
  - auto.
Qed.

(** What [process_log_entry] raises is no [FileNotFoundError]. *)
Lemma process_log_entry_no_file_error data self e self' :
  process_log_entry data self = (Raise e, self') → is_file_not_found e = false.
Proof.
  unfold process_log_entry, dict_getitem.
  destruct data as [| | | | | |d]; try (by intros [= <- _]).
  destruct (d !! "event"); [discriminate | by intros [= <- _]].
Qed.

Lemma monitor_step_tailing w f self :
  steady w →
  (monitor_step w (Tailing f) self).1 = Tailing f
  ∨ ∃ e, (monitor_step w (Tailing f) self).1 = Crashed e.
Proof.
  intros [Hrun Hread]. unfold monitor_step, leave_file. rewrite Hrun.
  destruct (next_line w) as [|e|line msg|data]; simpl; eauto.
  - rewrite (Hread e eq_refl). simpl. eauto.
  - destruct (process_log_entry data self) as [[[]|e] self1] eqn:H; simpl; eauto.
    rewrite (process_log_entry_no_file_error _ _ _ _ H). simpl. eauto.
Qed.

Lemma monitor_logs_crashed ws e self :
  monitor_logs ws (Crashed e) self = (Crashed e, self).
Proof. induction ws as [|w ws IH]; [reflexivity | exact IH]. Qed.

(** C8, amended: a scan of the directory that finds journal files, with
    the flag up and an [open] that succeeds, opens a regular file with a
    journal's name that no other such file is more recent than; and from
    then on, for as long as the shutdown flag stays up and no
    [FileNotFoundError] is raised while reading, the watcher is at every
    turn still on that file or dead of an uncaught exception, whatever the
    directory comes to hold: it does not scan again, and it opens no
    other file. *)
Theorem watcher_keeps_file :
  (∀ w self names best,
     running w = true →
     listing w = Ok names →
     newest_entry (Ok names) = Ok (Some best) →
     opening w = Opened →
     (monitor_step w Polling self).1 = Tailing (path_join directory (entry_name best))
     ∧ best ∈ names
     ∧ is_journal (entry_name best) = true
     ∧ entry_is_file best = true
     ∧ ∃ t, entry_mtime best = Ok t
            ∧ ∀ g, g ∈ names → is_journal (entry_name g) = true → entry_is_file g = true →
                   ∃ tg, entry_mtime g = Ok tg ∧ (tg ≤ t)%Z)
  ∧ (∀ ws f self,
       Forall steady ws →
       (monitor_logs ws (Tailing f) self).1 = Tailing f
       ∨ ∃ e, (monitor_logs ws (Tailing f) self).1 = Crashed e).
Proof.
  split.
  - intros w self names best Hrun Hls Hbest Hopen.
    destruct (newest_entry_spec _ _ Hbest) as (Hin & Hjournal & Hfile & Hmax).
    split; [|repeat split; assumption].
    unfold monitor_step, get_newest_file. rewrite Hrun, Hls, Hbest, Hopen. reflexivity.
  - intros ws f. induction ws as [|w ws IH]; intros self Hrun; [left; reflexivity|].
    apply Forall_cons in Hrun as [Hw Hws]. cbn [monitor_logs].
    destruct (monitor_step_tailing w f self Hw) as [Hst | [e Hst]];
      destruct (monitor_step w (Tailing f) self) as [st1 self1]; simpl in Hst; subst st1.
    + apply IH, Hws.
    + right. exists e. rewrite monitor_logs_crashed. reflexivity.
Qed.

(** * The model builder, event by event *)

(** [process_log_entry] raises only where it reads the event's name. *)
Lemma process_log_entry_raise data self e self' :
  process_log_entry data self = (Raise e, self') →
  self' = self ∧ ¬ has_event data ∧ (e = KeyError "event" ∨ e = not_a_dict data).
Proof.
  unfold process_log_entry, dict_getitem, has_event.
  destruct data as [| | | | | |d];
    try (intros [= <- <-]; split; [reflexivity|]; split; [|by right];
         intros (d & Hd & _); discriminate).
  destruct (d !! "event") as [ev|] eqn:Hev; [discriminate|].
  intros [= <- <-]. split; [reflexivity|]. split; [|by left].
  intros (d' & [= <-] & [ev Hev']). congruence.
Qed.

(** X1: [process_log_entry] returns normally on every decoded object
    that has an ['event'] key, whatever else it holds; on any other
    decoded line it raises ([KeyError] for the missing key, [TypeError]
    for a value that is no object) and leaves the state as it is. *)
Theorem process_log_entry_robust data self :
  (has_event data → ∃ self', process_log_entry data self = (Ok (), self'))
  ∧ (¬ has_event data →
     ∃ e, process_log_entry data self = (Raise e, self)
          ∧ (e = KeyError "event" ∨ e = not_a_dict data)).
Proof.
  split.
  - intros (d & -> & [ev Hev]). unfold process_log_entry, dict_getitem. rewrite Hev. eauto.
  - intros Hno. destruct (process_log_entry data self) as [[[]|e] self'] eqn:H.
    + exfalso. apply Hno. unfold process_log_entry, dict_getitem in H.
      destruct data as [| | | | | |d]; try discriminate.
      destruct (d !! "event") as [ev|] eqn:Hev; [|discriminate].
      exists d. eauto.
    + destruct (process_log_entry_raise _ _ _ _ H) as (-> & _ & He). eauto.
Qed.

(** What one event does to the body mapping. *)
Lemma process_log_entry_bodies data self self' :
  process_log_entry data self = (Ok (), self') →
  bodies self' = from_option (store (bodies self)) (bodies self) (stored_entry data).
Proof.
  unfold process_log_entry, stored_entry, dict_getitem.
  destruct data as [| | | | | |d]; try discriminate.
  destruct (d !! "event") as [ev|]; [|discriminate].
  intros [= <-]. simpl.
  destruct (py_eq_str ev "Scan") eqn:Hev.
  - unfold scan_try, dict_setitem, dict_contains.
    destruct (scan_body d (dict_get d "BodyID" (JInt 0))) as [body|e]; simpl; [|reflexivity].
    destruct (py_key (dict_get d "BodyID" (JInt 0))) as [k|e]; simpl; [|reflexivity].
    destruct (d !! "StarType"); reflexivity.
  - destruct (scan_body d (dict_get d "BodyID" (JInt 0))); [|reflexivity].
    destruct (py_key (dict_get d "BodyID" (JInt 0))); reflexivity.
Qed.

(** X2: the body mapping after a sequence of events is the mapping
    before it with the records of the stored Scan events written to it
    one after the other, each under its key; other events, and Scan
    events that were dropped, leave no trace in it. *)
Theorem process_entries_bodies events : ∀ self self',
  process_entries events self = (Ok (), self') →
  bodies self' = foldl store (bodies self) (omap stored_entry events).
Proof.
  induction events as [|data rest IH]; intros self self' H; cbn [process_entries] in H.
  - injection H as <-. reflexivity.
  - destruct (process_log_entry data self) as [[[]|e] self1] eqn:H1; [|discriminate].
    rewrite (IH _ _ H), (process_log_entry_bodies _ _ _ H1). simpl.
    destruct (stored_entry data); reflexivity.
Qed.

Lemma process_log_entry_dom data self r self' :
  process_log_entry data self = (r, self') →
  dom (bodies self) ⊆ dom (bodies self').
Proof.
  intros H. destruct r as [[]|e].
  - rewrite (process_log_entry_bodies _ _ _ H).
    destruct (stored_entry data) as [[k body]|]; simpl; [|done].
    unfold store. simpl. rewrite dom_insert. clear. set_solver.
  - by destruct (process_log_entry_raise _ _ _ _ H) as (-> & _).
Qed.

(** X3: no event removes a body: whatever the events are, and however
    the processing ends, every key of the mapping before is a key of the
    mapping after. *)
Theorem bodies_never_shrink events : ∀ self r self',
  process_entries events self = (r, self') →
  dom (bodies self) ⊆ dom (bodies self').
Proof.
  induction events as [|data rest IH]; intros self r self' H; cbn [process_entries] in H.
  - by injection H as <- <-.
  - destruct (process_log_entry data self) as [[[]|e] self1] eqn:H1.
    + transitivity (dom (bodies self1)); [exact (process_log_entry_dom _ _ _ _ H1)|].
      exact (IH _ _ _ H).
    + injection H as <- <-. exact (process_log_entry_dom _ _ _ _ H1).
Qed.

(** X4: a stored Scan event can be read back under its key, no other
    key of the mapping is touched, and processing the same event again
    leaves the mapping as it is (the record is replaced in place). *)
Theorem scan_round_trip data self self' k body :
  process_log_entry data self = (Ok (), self') →
  stored_entry data = Some (k, body) →
  bodies self' !! k = Some body
  ∧ (∀ k', k' ≠ k → bodies self' !! k' = bodies self !! k')
  ∧ bodies (process_log_entry data self').2 = bodies self'.
Proof.
  intros H Hstored. pose proof (process_log_entry_bodies _ _ _ H) as Hb.
  rewrite Hstored in Hb. simpl in Hb. unfold store in Hb. simpl in Hb.
  split; [|split].
  - rewrite Hb. apply lookup_insert_eq.
  - intros k' Hne. rewrite Hb. by apply lookup_insert_ne.
  - destruct (process_log_entry data self') as [[[]|e] self2] eqn:H2; simpl.
    + rewrite (process_log_entry_bodies _ _ _ H2), Hstored. simpl. unfold store. simpl.
      rewrite Hb. apply insert_insert_eq.
    + by destruct (process_log_entry_raise _ _ _ _ H2) as (-> & _).
Qed.

(** The record built for an event carries the id it was built for. *)
Lemma scan_body_id d id body : scan_body d id = Ok body → body_id body = id.
Proof.
  unfold scan_body. intros H.
  repeat match type of H with
         | (mbind _ ?m = Ok _) => destruct m; simpl in H; [|discriminate]
         end.
  injection H as <-. reflexivity.
Qed.

Lemma stored_entry_key data k body :
  stored_entry data = Some (k, body) → py_key (body_id body) = Ok k.
Proof.
  unfold stored_entry. destruct data as [| | | | | |d]; try discriminate.
  destruct (d !! "event") as [ev|]; [|discriminate].
  destruct (scan_body d (dict_get d "BodyID" (JInt 0))) as [b|] eqn:Hb; [|discriminate].
  destruct (py_key (dict_get d "BodyID" (JInt 0))) as [k0|] eqn:Hk; [|discriminate].
  destruct (py_eq_str ev "Scan"); [|discriminate].
  intros [= <- <-]. by rewrite (scan_body_id _ _ _ Hb).
Qed.

(** X5: if every record of the mapping sits under the key of its own
    [body_id], it is still so after any sequence of events, however the
    processing ends. *)
Theorem keyed_preserved events : ∀ self r self',
  keyed self →
  process_entries events self = (r, self') →
  keyed self'.
Proof.
  induction events as [|data rest IH]; intros self r self' Hkeyed H;
    cbn [process_entries] in H.
  - by injection H as <- <-.
  - destruct (process_log_entry data self) as [[[]|e] self1] eqn:H1.
    + apply (IH self1 r self'); [|exact H].
      unfold keyed. rewrite (process_log_entry_bodies _ _ _ H1).
      destruct (stored_entry data) as [[k body]|] eqn:Hstored; simpl; [|exact Hkeyed].
      apply map_Forall_insert_2; [exact (stored_entry_key _ _ _ Hstored) | exact Hkeyed].
    + injection H as <- <-.
      by destruct (process_log_entry_raise _ _ _ _ H1) as (-> & _).
Qed.

Lemma star_entry_stored data id :
  star_entry data = Some id →
  ∃ k body, stored_entry data = Some (k, body) ∧ py_key id = Ok k.
Proof.
  unfold star_entry, stored_entry. destruct data as [| | | | | |d]; try discriminate.
  destruct (d !! "event") as [ev|]; [|discriminate].
  destruct (d !! "StarType"); [|discriminate].
  destruct (scan_body d (dict_get d "BodyID" (JInt 0))) as [b|]; [|discriminate].
  destruct (py_key (dict_get d "BodyID" (JInt 0))) as [k|] eqn:Hk; [|discriminate].
  destruct (py_eq_str ev "Scan"); [|discriminate].
  intros [= <-]. eauto.
Qed.

(** X6: if every id of the star list is a key of the body mapping, it
    is still so after any sequence of events that is processed to its
    end. *)
Theorem stars_known_preserved events : ∀ self self',
  stars_known self →
  process_entries events self = (Ok (), self') →
  stars_known self'.
Proof.
  induction events as [|data rest IH]; intros self self' Hknown H;
    cbn [process_entries] in H.
  - by injection H as <-.
  - destruct (process_log_entry data self) as [[[]|e] self1] eqn:H1; [|discriminate].
    apply (IH self1 self'); [|exact H].
    unfold stars_known. rewrite (process_log_entry_stars _ _ _ H1).
    pose proof (process_log_entry_dom _ _ _ _ H1) as Hdom.
    apply Forall_app. split.
    + eapply Forall_impl; [exact Hknown|]. simpl.
      intros id (k & Hk & Hin). exists k. split; [exact Hk|]. clear -Hdom Hin. set_solver.
    + destruct (star_entry data) as [id|] eqn:Hstar; simpl; [|constructor].
      destruct (star_entry_stored _ _ Hstar) as (k & body & Hstored & Hk).
      constructor; [|constructor]. exists k. split; [exact Hk|].
      rewrite (process_log_entry_bodies _ _ _ H1), Hstored. simpl. unfold store. simpl.
      rewrite dom_insert. clear. set_solver.
Qed.

Lemma process_log_entry_effects data self self' :
  process_log_entry data self = (Ok (), self') →
  log self' = (log self ++ option_list (error_entry data))%list
  ∧ queue self' = (queue self ++ [draw_system; update_body_list])%list.
Proof.
  unfold process_log_entry, error_entry, dict_getitem.
  destruct data as [| | | | | |d]; try discriminate.
  destruct (d !! "event") as [ev|]; [|discriminate].
  intros [= <-]. simpl.
  destruct (py_eq_str ev "Scan") eqn:Hev; simpl.
  - unfold scan_try, dict_setitem, dict_contains.
    destruct (scan_body d (dict_get d "BodyID" (JInt 0))) as [body|e]; simpl.
    + destruct (py_key (dict_get d "BodyID" (JInt 0))) as [k|e]; simpl.
      * destruct (d !! "StarType"); simpl; rewrite app_nil_r, <- app_assoc; done.
      * rewrite <- app_assoc. done.
    + rewrite <- app_assoc. done.
  - rewrite app_nil_r, <- app_assoc. done.
Qed.

(** X7: every event that is processed, Scan or not, stored or dropped,
    queues one [draw_system] and one [update_body_list], in this order;
    and the log gets one error record for every Scan event that was
    dropped, and nothing else. *)
Theorem process_entries_effects events : ∀ self self',
  process_entries events self = (Ok (), self') →
  log self' = (log self ++ omap error_entry events)%list
  ∧ queue self' =
      (queue self ++ concat ((λ _, [draw_system; update_body_list]) <$> events))%list.
Proof.
  induction events as [|data rest IH]; intros self self' H; cbn [process_entries] in H.
  - injection H as <-. by rewrite !app_nil_r.
  - destruct (process_log_entry data self) as [[[]|e] self1] eqn:H1; [|discriminate].
    destruct (IH _ _ H) as [-> ->].
    destruct (process_log_entry_effects _ _ _ H1) as [-> ->].
    rewrite <- !app_assoc. split; [|reflexivity].
    f_equal. simpl. destruct (error_entry data); reflexivity.
Qed.

(** *** When a Scan event is stored *)

Lemma float_field_convertible d f : is_Ok (float_field d f) → convertible d f.
Proof.
  unfold float_field, dict_get, convertible. intros H v Hv. by rewrite Hv in H.
Qed.

Lemma radians_field_convertible d f : is_Ok (radians_field d f) → convertible d f.
Proof.
  unfold radians_field. intros H. apply float_field_convertible.
  by destruct (float_field d f).
Qed.

(** X8: the [try] block of a Scan event runs to its end exactly when
    the event has a [BodyName], [get_parent_id] accepts its [Parents],
    every numeric field it has and that is read holds a value [float()]
    accepts, and its [BodyID] is hashable; in every other case the event
    is dropped. *)
Theorem scan_accepted_iff d id self :
  is_Ok (scan_try d id self).1 ↔
    is_Some (d !! "BodyName")
    ∧ is_Ok (get_parent_id (dict_get d "Parents" (JList [])))
    ∧ (∀ f, f ∈ read_fields d → convertible d f)
    ∧ is_Ok (py_key id).
Proof.
  clear calculate_position directory.
  assert (is_Ok (scan_body d id) ↔
            is_Some (d !! "BodyName")
            ∧ is_Ok (get_parent_id (dict_get d "Parents" (JList [])))
            ∧ Forall (convertible d) (read_fields d)) as Hbody.
  { unfold scan_body, dict_getitem, read_fields. split.
    - intros H.
      destruct (d !! "BodyName") as [nm|]; [|contradiction]. simpl in H.
      destruct (get_parent_id (dict_get d "Parents" (JList []))) as [parent|];
        [|contradiction]. simpl in H.
      destruct (float_field d "SemiMajorAxis") eqn:E1; [|contradiction]. simpl in H.
      destruct (float_field d "Eccentricity") eqn:E2; [|contradiction]. simpl in H.
      destruct (radians_field d "OrbitalInclination") eqn:E3; [|contradiction]. simpl in H.
      destruct (float_field d "OrbitalPeriod") eqn:E4; [|contradiction]. simpl in H.
      destruct (radians_field d "AscendingNode") eqn:E5; [|contradiction]. simpl in H.
      destruct (radians_field d "MeanAnomaly") eqn:E6; [|contradiction]. simpl in H.
      destruct (float_field d "Radius") eqn:E7; [|contradiction]. simpl in H.
      destruct (float_field d (mass_field d)) eqn:E8; [|contradiction]. simpl in H.
      destruct (float_field d "DistanceFromArrivalLS") eqn:E9; [|contradiction]. simpl in H.
      destruct (float_field d "SurfaceTemperature") eqn:E10; [|contradiction]. simpl in H.
      destruct (float_field d "SurfaceGravity") eqn:E11; [|contradiction].
      split; [eauto|]. split; [exact I|].
      repeat constructor;
        first [ apply float_field_convertible;
                match goal with E : ?t = Ok _ |- is_Ok ?t => by rewrite E end
              | apply radians_field_convertible;
                match goal with E : ?t = Ok _ |- is_Ok ?t => by rewrite E end ].
    - intros ([nm ->] & Hparent & Hall).
      destruct (get_parent_id (dict_get d "Parents" (JList []))) as [parent|];
        [|contradiction]. simpl.
      repeat match type of Hall with
             | Forall _ (_ :: _) => apply Forall_cons in Hall as [? Hall]
             end.
      destruct (float_field_total d "SemiMajorAxis") as (? & -> & _); [assumption|].
      destruct (float_field_total d "Eccentricity") as (? & -> & _); [assumption|].
      destruct (radians_field_total d "OrbitalInclination") as (? & -> & _); [assumption|].
      destruct (float_field_total d "OrbitalPeriod") as (? & -> & _); [assumption|].
      destruct (radians_field_total d "AscendingNode") as (? & -> & _); [assumption|].
      destruct (radians_field_total d "MeanAnomaly") as (? & -> & _); [assumption|].
      destruct (float_field_total d "Radius") as (? & -> & _); [assumption|].
      destruct (float_field_total d (mass_field d)) as (? & -> & _); [assumption|].
      destruct (float_field_total d "DistanceFromArrivalLS") as (? & -> & _); [assumption|].
      destruct (float_field_total d "SurfaceTemperature") as (? & -> & _); [assumption|].
      destruct (float_field_total d "SurfaceGravity") as (? & -> & _); [assumption|].
      exact I. }
  rewrite <- Forall_forall.
  unfold scan_try, dict_setitem.
  destruct (scan_body d id) as [body|e]; simpl.
  - destruct (py_key id) as [k|e]; simpl; split; tauto.
  - split; [contradiction|]. intros (? & ? & ? & _). tauto.
Qed.

(** * The log watcher, turn by turn *)

Lemma monitor_logs_returned ws self :
  monitor_logs ws Returned self = (Returned, self).
Proof. induction ws as [|w ws IH]; [reflexivity | exact IH]. Qed.

Lemma monitor_step_readable w f self :
  readable w →
  (∀ data, next_line w = Entry data → has_event data) →
  ∃ self',
    monitor_step w (Tailing f) self = (Tailing f, self')
    ∧ bodies self' = foldl store (bodies self) (omap stored_entry (entries_of [w]))
    ∧ stars self' = (stars self ++ omap star_entry (entries_of [w]))%list.
Proof.
  intros [Hrun Hread] Hevent. unfold monitor_step, entries_of. rewrite Hrun. simpl.
  destruct (next_line w) as [|e|line msg|data] eqn:Hline; simpl.
  - eexists. split; [reflexivity|]. by rewrite app_nil_r.
  - by destruct (Hread e).
  - eexists. split; [reflexivity|]. simpl. by rewrite app_nil_r.
  - destruct (proj1 (process_log_entry_robust data self) (Hevent data eq_refl)) as [self' H].
    rewrite H. exists self'. split; [reflexivity|].
    rewrite (process_log_entry_bodies _ _ _ H), (process_log_entry_stars _ _ _ H).
    destruct (stored_entry data), (star_entry data); done.
Qed.

(** X9: while the flag is up and reads do not raise, lines that are not
    JSON are skipped: the watcher stays on its file, and the body mapping
    and the star list come out as the decoded lines alone make them,
    provided each decoded line is an object with an ['event'] key. *)
Theorem watcher_skips_malformed ws : ∀ f self,
  Forall readable ws →
  Forall has_event (entries_of ws) →
  ∃ self',
    monitor_logs ws (Tailing f) self = (Tailing f, self')
    ∧ bodies self' = foldl store (bodies self) (omap stored_entry (entries_of ws))
    ∧ stars self' = (stars self ++ omap star_entry (entries_of ws))%list.
Proof.
  induction ws as [|w ws IH]; intros f self Hws Hev.
  - exists self. simpl. by rewrite app_nil_r.
  - apply Forall_cons in Hws as [Hw Hws].
    assert ((∀ data, next_line w = Entry data → has_event data)
            ∧ Forall has_event (entries_of ws)) as [Hw' Hev'].
    { unfold entries_of in Hev |- *. simpl in Hev.
      destruct (next_line w) as [| | |data]; simpl in Hev; try (split; [discriminate | done]).
      apply Forall_cons in Hev as [Hd Hev]. split; [by intros ? [= <-] | done]. }
    destruct (monitor_step_readable w f self Hw Hw') as (self1 & Hstep & Hb1 & Hs1).
    destruct (IH f self1 Hws Hev') as (self' & Hrun & Hb & Hs).
    exists self'. cbn [monitor_logs]. rewrite Hstep. split; [exact Hrun|].
    rewrite Hb, Hs, Hb1, Hs1. unfold entries_of. simpl.
    destruct (next_line w) as [| | |data]; simpl; rewrite ?app_nil_r; try done.
    destruct (stored_entry data), (star_entry data); simpl;
      rewrite <- ?app_assoc, ?app_nil_r; done.
Qed.

(** X10: a line that decodes to something other than an object with an
    ['event'] key ends the watcher thread: the exception leaves
    [monitor_logs], the state stays as it was, and nothing that comes
    after is processed. *)
Theorem watcher_dies_on_bad_entry w ws f self data :
  running w = true →
  next_line w = Entry data →
  ¬ has_event data →
  ∃ e, monitor_logs (w :: ws) (Tailing f) self = (Crashed e, self)
       ∧ (e = KeyError "event" ∨ e = not_a_dict data).
Proof.
  intros Hrun Hline Hbad.
  destruct (proj2 (process_log_entry_robust data self) Hbad) as (e & H & He).
  exists e. split; [|exact He].
  cbn [monitor_logs]. unfold monitor_step, leave_file.
  rewrite Hrun, Hline, H, (process_log_entry_no_file_error _ _ _ _ H).
  apply monitor_logs_crashed.
Qed.

(** X11: once the shutdown flag is down, the watcher thread is over
    within two turns of its loops, without having touched the state, and
    it stays over. *)
Theorem watcher_stops st self w1 w2 ws :
  running w1 = false →
  running w2 = false →
  ∃ st', monitor_logs (w1 :: w2 :: ws) st self = (st', self)
         ∧ (st' = Returned ∨ ∃ e, st' = Crashed e).
Proof.
  intros H1 H2. cbn [monitor_logs]. unfold monitor_step.
  destruct st as [|f| |e]; rewrite ?H1, ?H2.
  - exists Returned. split; [apply monitor_logs_returned | by left].
  - exists Returned. split; [apply monitor_logs_returned | by left].
  - exists Returned. split; [apply monitor_logs_returned | by left].
  - exists (Crashed e). split; [apply monitor_logs_crashed | right; eauto].
Qed.

(** A turn of the outer loop that finds no journal, or whose [open]
    fails because the file is gone. *)
Lemma monitor_step_polling w self :
  running w = true →
  newest_entry (listing w) = Ok None ∨ (∃ e, newest_entry (listing w) = Raise e)
    ∨ opening w = NotFound →
  ∃ self', monitor_step w Polling self = (Polling, self')
           ∧ bodies self' = bodies self ∧ stars self' = stars self
           ∧ queue self' = queue self.
Proof.
  intros Hrun H. unfold monitor_step, get_newest_file. rewrite Hrun.
  destruct (newest_entry (listing w)) as [[best|]|e]; simpl.
  - destruct H as [[=] | [[e [=]] | ->]]. eauto.
  - eauto.
  - eauto.
Qed.

(** X19: an empty directory, a directory that cannot be listed and a
    file that vanishes before it is opened are never fatal: for as long
    as every turn meets one of them, the watcher is back at the head of
    its outer loop, and the body mapping, the star list and the queue are
    untouched. *)
Theorem watcher_keeps_polling ws : ∀ self,
  Forall (λ w, running w = true
               ∧ (newest_entry (listing w) = Ok None
                  ∨ (∃ e, newest_entry (listing w) = Raise e)
                  ∨ opening w = NotFound)) ws →
  ∃ self', monitor_logs ws Polling self = (Polling, self')
           ∧ bodies self' = bodies self ∧ stars self' = stars self
           ∧ queue self' = queue self.
Proof.
  induction ws as [|w ws IH]; intros self Hws.
  - exists self. done.
  - apply Forall_cons in Hws as [[Hrun Hw] Hws].
    destruct (monitor_step_polling w self Hrun Hw) as (self1 & Hstep & Hb & Hs & Hq).
    destruct (IH self1 Hws) as (self' & Hrest & Hb' & Hs' & Hq').
    exists self'. cbn [monitor_logs]. rewrite Hstep.
    split; [exact Hrest|]. by rewrite Hb', Hs', Hq'.
Qed.

(** *** Choosing the file *)

Lemma max_mtime_first files : ∀ l1 best best_time l2 r,
  entry_mtime best = Ok best_time →
  Forall (older_than best_time) l1 →
  Forall (not_newer_than best_time) l2 →
  max_mtime best best_time files = Ok r →
  ∃ l1' l2' t,
    (l1 ++ best :: l2 ++ files = l1' ++ r :: l2')%list
    ∧ entry_mtime r = Ok t
    ∧ Forall (older_than t) l1'
    ∧ Forall (not_newer_than t) l2'.
Proof.
  induction files as [|f files IH]; intros l1 best bt l2 r Hbest H1 H2 H; simpl in H.
  - injection H as <-. exists l1, l2, bt. by rewrite app_nil_r.
  - destruct (entry_mtime f) as [tf|] eqn:Hf; simpl in H; [|discriminate].
    destruct (Z.ltb_spec bt tf) as [Hlt|Hge].
    + destruct (IH (l1 ++ best :: l2)%list f tf [] r Hf) as (l1' & l2' & t & Heq & ?);
        [| constructor | exact H |].
      * apply Forall_app. split; [|apply Forall_cons; split].
        -- eapply Forall_impl; [exact H1|]. intros g (tg & ? & ?). exists tg. split; [done|lia].
        -- exists bt. split; [done|lia].
        -- eapply Forall_impl; [exact H2|]. intros g (tg & ? & ?). exists tg. split; [done|lia].
      * exists l1', l2', t. split; [|done]. rewrite <- Heq, <- app_assoc. reflexivity.
    + destruct (IH l1 best bt (l2 ++ [f])%list r Hbest H1) as (l1' & l2' & t & Heq & ?);
        [| exact H |].
      * apply Forall_app. split; [exact H2|]. constructor; [|constructor].
        exists tf. split; [done|lia].
      * exists l1', l2', t. split; [|done]. rewrite <- Heq, <- app_assoc. reflexivity.
Qed.

(** X12: when [get_newest_file] returns a path, it logs nothing, and
    the path is that of a regular file with a journal's name whose
    modification time is later than that of every journal file listed
    before it and not earlier than that of any listed after it: of the
    newest files, the first in listing order. *)
Theorem get_newest_file_first_newest ls self p self' :
  get_newest_file ls self = (Some p, self') →
  self' = self
  ∧ ∃ names l1 best l2 t,
      ls = Ok names
      ∧ journal_files names = (l1 ++ best :: l2)%list
      ∧ p = path_join directory (entry_name best)
      ∧ is_journal (entry_name best) = true
      ∧ entry_is_file best = true
      ∧ entry_mtime best = Ok t
      ∧ Forall (older_than t) l1
      ∧ Forall (not_newer_than t) l2.
Proof.
  unfold get_newest_file.
  destruct (newest_entry ls) as [[best|]|e] eqn:Hnewest; try discriminate.
  intros [= <- <-]. split; [reflexivity|].
  destruct ls as [names|e]; [|discriminate].
  pose proof (newest_entry_spec _ _ Hnewest) as (_ & Hj & Hfile & _).
  unfold newest_entry in Hnewest. simpl in Hnewest.
  change (filter (λ f, entry_is_file f = true)
            (filter (λ f, is_journal (entry_name f) = true) names))
    with (journal_files names) in Hnewest.
  destruct (journal_files names) as [|f files] eqn:Hfiles; [discriminate|].
  destruct (entry_mtime f) as [tf|] eqn:Hf; simpl in Hnewest; [|discriminate].
  destruct (max_mtime f tf files) as [r|] eqn:Hmax; simpl in Hnewest; [|discriminate].
  injection Hnewest as ->.
  destruct (max_mtime_first files [] f tf [] best Hf) as (l1 & l2 & t & Heq & Ht & H1 & H2);
    [constructor | constructor | exact Hmax |].
  exists names, l1, best, l2, t. simpl in Heq. by rewrite Hfiles, Heq.
Qed.

Lemma max_mtime_total files : ∀ best best_time,
  is_Ok (max_mtime best best_time files) ↔ Forall (λ g, is_Ok (entry_mtime g)) files.
Proof.
  clear float_of_str get_parent_id calculate_position directory.
  induction files as [|f files IH]; intros best bt; simpl.
  - split; [constructor | done].
  - rewrite Forall_cons. destruct (entry_mtime f) as [tf|]; simpl.
    + destruct (bt <? tf)%Z; rewrite IH; tauto.
    + tauto.
Qed.

Lemma mtime_all_or_raise (files : list dir_entry) :
  Forall (λ g, is_Ok (entry_mtime g)) files
  ∨ ∃ g e, g ∈ files ∧ entry_mtime g = Raise e.
Proof.
  clear float_of_str get_parent_id calculate_position directory.
  induction files as [|f files [IH | (g & e & Hg & He)]].
  - left. constructor.
  - destruct (entry_mtime f) as [t|e] eqn:Hf.
    + left. constructor; [by rewrite Hf | exact IH].
    + right. exists f, e. split; [by left | exact Hf].
  - right. exists g, e. split; [by right | exact He].
Qed.

(** X13: [get_newest_file] returns no path exactly when [os.listdir]
    raised, or no name of the listing is a journal file, or the
    modification time of one of the journal files cannot be read, be it
    not the newest. *)
Theorem get_newest_file_none ls self :
  (get_newest_file ls self).1 = None ↔
    (∃ e, ls = Raise e)
    ∨ (∃ names, ls = Ok names
         ∧ (journal_files names = []
            ∨ ∃ g e, g ∈ journal_files names ∧ entry_mtime g = Raise e)).
Proof.
  clear float_of_str get_parent_id calculate_position.
  destruct ls as [names|e]; [|split; [eauto | reflexivity]].
  assert ((get_newest_file (Ok names) self).1 = None ↔
            journal_files names = []
            ∨ ∃ g e, g ∈ journal_files names ∧ entry_mtime g = Raise e) as Hiff.
  { unfold get_newest_file, newest_entry. simpl.
    change (filter (λ f, entry_is_file f = true)
              (filter (λ f, is_journal (entry_name f) = true) names))
      with (journal_files names).
    destruct (journal_files names) as [|f files]; simpl; [split; [by left | done]|].
    pose proof (max_mtime_total files f) as Htotal.
    destruct (entry_mtime f) as [tf|ef] eqn:Hf; simpl.
    - specialize (Htotal tf).
      destruct (max_mtime f tf files) as [r|e] eqn:Hmax; simpl; split.
      + discriminate.
      + intros [[=] | (g & e & Hg & He)].
        apply elem_of_cons in Hg as [-> | Hg]; [congruence|].
        pose proof (proj1 Htotal I) as Hall.
        rewrite Forall_forall in Hall. specialize (Hall g Hg). by rewrite He in Hall.
      + intros _. right.
        destruct (mtime_all_or_raise files) as [Hall | (g & eg & Hg & Heg)];
          [by apply Htotal in Hall|].
        exists g, eg. split; [by right | done].
      + done.
    - split; [|done]. intros _. right. exists f, ef. split; [by left | done]. }
  rewrite Hiff. split.
  - intros H. right. eauto.
  - intros [[e [=]] | (names' & [= <-] & H)]. exact H.
Qed.

(** *** Journal names *)

Lemma append_cons a (s t : string) : String a s ++ t = String a (s ++ t).
Proof. reflexivity. Qed.

Lemma prefix_iff s1 : ∀ s2, String.prefix s1 s2 = true ↔ ∃ t, s2 = s1 ++ t.
Proof.
  clear float_of_str get_parent_id calculate_position directory.
  induction s1 as [|a s1 IH]; intros s2; simpl.
  - split; [intros _; by exists s2 | intros _; by destruct s2].
  - destruct s2 as [|b s2]; [split; [discriminate | by intros [t [=]]]|].
    simpl. setoid_rewrite append_cons. destruct (Ascii.ascii_dec a b) as [->|Hne].
    + rewrite IH. split; intros [t Ht]; exists t; congruence.
    + split; [discriminate | intros [t Ht]; congruence].
Qed.

Lemma string_app_assoc (a b c : string) : (a ++ b) ++ c = a ++ (b ++ c).
Proof.
  clear float_of_str get_parent_id calculate_position directory.
  induction a as [|x a IH]; [reflexivity|]. rewrite !append_cons. congruence.
Qed.

Lemma string_app_nil_r (a : string) : a ++ "" = a.
Proof.
  clear float_of_str get_parent_id calculate_position directory.
  induction a as [|x a IH]; [reflexivity|]. rewrite append_cons. congruence.
Qed.

Lemma rev_app_spec s1 : ∀ s2, String.rev_app s1 s2 = String.rev s1 ++ s2.
Proof.
  unfold String.rev. induction s1 as [|a s1 IH]; intros s2; simpl; [reflexivity|].
  rewrite (IH (String a s2)), (IH (String a "")), string_app_assoc. reflexivity.
Qed.

Lemma rev_cons a (s : string) : String.rev (String a s) = String.rev s ++ String a "".
Proof. unfold String.rev at 1. simpl. apply rev_app_spec. Qed.

Lemma rev_append (a b : string) : String.rev (a ++ b) = String.rev b ++ String.rev a.
Proof.
  induction a as [|x a IH].
  - change ("" ++ b) with b. change (String.rev "") with "". by rewrite string_app_nil_r.
  - rewrite append_cons, !rev_cons, IH, string_app_assoc. reflexivity.
Qed.

Lemma rev_involutive (a : string) : String.rev (String.rev a) = a.
Proof.
  induction a as [|x a IH]; [reflexivity|].
  rewrite rev_cons, rev_append, IH. reflexivity.
Qed.

(** X14: a name passes the watcher's test exactly when it begins with
    ["Journal."] and ends with [".log"] (the two may overlap, as in
    ["Journal.log"]). *)
Theorem is_journal_iff f :
  is_journal f = true ↔ (∃ s, f = "Journal." ++ s) ∧ (∃ t, f = t ++ ".log").
Proof.
  clear float_of_str get_parent_id calculate_position directory.
  unfold is_journal. rewrite andb_true_iff, !prefix_iff.
  apply and_iff_compat_l. split.
  - intros [t Ht]. exists (String.rev t).
    rewrite <- (rev_involutive f), Ht, rev_append. reflexivity.
  - intros [t ->]. exists (String.rev t). apply rev_append.
Qed.

(** * Builder and resolver together *)

Lemma scan_body_parent d id body :
  scan_body d id = Ok body →
  get_parent_id (dict_get d "Parents" (JList [])) = Ok (parent_id body).
Proof.
  unfold scan_body. intros H.
  destruct (dict_getitem d "BodyName"); simpl in H; [|discriminate].
  destruct (get_parent_id (dict_get d "Parents" (JList []))) as [parent|];
    simpl in H; [|discriminate].
  repeat match type of H with
         | (mbind _ ?m = Ok _) => destruct m; simpl in H; [|discriminate]
         end.
  injection H as <-. reflexivity.
Qed.

(** X15: a stored Scan event whose [Parents] resolve to its own
    [BodyID] (other than 0) leaves a body in the mapping whose position
    is not resolved at any recursion depth. *)
Theorem self_parent_never_resolves d p k body self :
  stored_entry (JObj d) = Some (k, body) →
  k = KInt p →
  get_parent_id (dict_get d "Parents" (JList [])) = Ok (Some p) →
  p ≠ 0%Z →
  bodies (process_log_entry (JObj d) self).2 !! KInt p = Some body
  ∧ ∀ depth, get_body_position depth body (process_log_entry (JObj d) self).2 = None.
Proof.
  intros Hstored -> Hparent Hnz.
  assert (has_event (JObj d)) as Hev.
  { exists d. split; [reflexivity|]. unfold stored_entry in Hstored.
    destruct (d !! "event"); [eauto | discriminate]. }
  destruct (proj1 (process_log_entry_robust (JObj d) self) Hev) as [self' H].
  rewrite H. simpl.
  destruct (scan_round_trip _ _ _ _ _ H Hstored) as (Hlookup & _ & _).
  split; [exact Hlookup|].
  assert (parent_id body = Some p) as Hpid.
  { unfold stored_entry in Hstored.
    destruct (d !! "event"); [|discriminate].
    destruct (scan_body d (dict_get d "BodyID" (JInt 0))) as [b|] eqn:Hb; [|discriminate].
    destruct (py_key (dict_get d "BodyID" (JInt 0))); [|discriminate].
    destruct (py_eq_str j "Scan"); [|discriminate].
    injection Hstored as _ <-.
    pose proof (scan_body_parent _ _ _ Hb) as Hp. congruence. }
  intros depth. apply (get_body_position_cycle self' O depth (KInt p) body Hlookup).
  simpl. unfold parent_key. rewrite Hlookup. simpl. rewrite Hpid. simpl.
  destruct (Z.eqb_spec p 0) as [->|_]; [contradiction|].
  rewrite Hlookup. reflexivity.
Qed.

(** What one event leaves alone: the view and the clock. *)
Lemma process_log_entry_view data self r self' :
  process_log_entry data self = (r, self') →
  canvas_width self' = canvas_width self ∧ canvas_height self' = canvas_height self
  ∧ center_x self' = center_x self ∧ center_y self' = center_y self
  ∧ scale_factor self' = scale_factor self ∧ zoom self' = zoom self
  ∧ animation_time self' = animation_time self.
Proof.
  unfold process_log_entry, dict_getitem.
  destruct data as [| | | | | |d]; try (by intros [= <- <-]).
  destruct (d !! "event") as [ev|]; [|by intros [= <- <-]].
  intros [= <- <-]. simpl.
  destruct (py_eq_str ev "Scan"); [|done].
  unfold scan_try, dict_setitem.
  destruct (scan_body d (dict_get d "BodyID" (JInt 0))); simpl; [|done].
  destruct (py_key (dict_get d "BodyID" (JInt 0))); simpl; [|done].
  destruct (dict_contains d "StarType"); done.
Qed.

(** X16: no sequence of events, however its processing ends, changes
    the canvas size, the pan offset, the scale, the zoom or the animation
    clock. *)
Theorem process_entries_view events : ∀ self r self',
  process_entries events self = (r, self') →
  canvas_width self' = canvas_width self ∧ canvas_height self' = canvas_height self
  ∧ center_x self' = center_x self ∧ center_y self' = center_y self
  ∧ scale_factor self' = scale_factor self ∧ zoom self' = zoom self
  ∧ animation_time self' = animation_time self.
Proof.
  induction events as [|data rest IH]; intros self r self' H; cbn [process_entries] in H.
  - by injection H as <- <-.
  - destruct (process_log_entry data self) as [[[]|e] self1] eqn:H1.
    + destruct (process_log_entry_view _ _ _ _ H1) as (<- & <- & <- & <- & <- & <- & <-).
      exact (IH _ _ _ H).
    + injection H as <- <-. exact (process_log_entry_view _ _ _ _ H1).
Qed.


(** *** The whole chain *)

(** A chain of [n] ancestors is not resolved within depth [n]. *)
Lemma get_body_position_too_shallow self path : ∀ body (depth : nat),
  lineage self body path →
  (depth ≤ length path)%nat →
  get_body_position depth body self = None.
Proof.
  clear float_of_str get_parent_id directory.
  induction path as [|parent path IH]; intros body depth Hlin Hle; simpl in *.
  - assert (depth = 0%nat) as -> by lia. reflexivity.
  - destruct depth as [|depth]; [reflexivity|].
    destruct Hlin as [Hparent Hlin].
    rewrite get_body_position_unfold, Hparent, (IH parent depth Hlin); [reflexivity | lia].
Qed.

Section Chain.

Hypothesis calculate_position_pure :
  ∀ body t self, (calculate_position body t self).2 = self.

(** X18: when [calculate_position] leaves the state alone, the position
    of a body with [n] ancestors on its chain is resolved at depth
    [n + 1] and no less, the state is left as it was, and the result is
    the canvas centre plus the offsets of the bodies of the chain, added
    from the top down, the topmost body contributing none; the exception
    of the topmost body whose offset raises is the call's. *)
Theorem get_body_position_chain self path : ∀ body,
  lineage self body path →
  get_body_position (S (length path)) body self = Some (position_sum self body path, self)
  ∧ ∀ depth : nat, (depth ≤ length path)%nat → get_body_position depth body self = None.
Proof using calculate_position_pure.
  clear float_of_str get_parent_id directory.
  intros body Hlin. split; [|intros depth; by apply get_body_position_too_shallow].
  revert body Hlin.
  induction path as [|parent path IH]; intros body Hlin; simpl in Hlin.
  - rewrite get_body_position_unfold, Hlin. reflexivity.
  - destruct Hlin as [Hparent Hlin].
    change (length (parent :: path)) with (S (length path)).
    rewrite get_body_position_unfold, Hparent, (IH parent Hlin).
    cbn [position_sum]. destruct (position_sum self parent path) as [[px py]|e]; simpl;
      [|reflexivity].
    pose proof (calculate_position_pure body (animation_time self) self) as Hpure.
    destruct (calculate_position body (animation_time self) self) as [[[ox oy]|e] self2];
      simpl in *; by subst.
Qed.

End Chain.

End Orrery.

(** * The model of the position calculator *)

(** The model of [calculate_position] reads [self] and leaves it as it
    is. *)
Lemma calculate_position_model_pure orbit_point body t self :
  (calculate_position_model orbit_point body t self).2 = self.
Proof. reflexivity. Qed.

(** * The program on the sample data *)

(** The end-to-end scenario of the spec: the two events give two bodies,
    the second a planet whose parent is the first. *)
Example scenario_two_bodies :
  process_entries no_numeric_strings get_parent_id_model
    [JObj star_a; JObj planet_b] (init 800 600) = (Ok (), system_ab).
Proof. vm_compute. reflexivity. Qed.

Lemma get_body_position_child_witness :
  get_body_position (calculate_position_model on_axis) 2 planet_b_body system_ab
  = Some (Ok ((400 + 1.5e10 * (0x1.12e0be826d695p-30 * 1))%float, (300 + 0 * (0x1.12e0be826d695p-30 * 1))%float), system_ab).
Proof.
  apply (get_body_position_child (calculate_position_model on_axis)
           1 planet_b_body 1 star_a_body system_ab 400 300 system_ab).
  - reflexivity.
  - lia.
  - vm_compute. reflexivity.
  - vm_compute. reflexivity.
  - vm_compute. reflexivity.
Defined.

Lemma get_body_position_root_witness :
  get_body_position (calculate_position_model on_axis) 1 star_a_body system_ab
  = Some (Ok ((Z2float 800 / 2 + 0)%float, (Z2float 600 / 2 + 0)%float), system_ab)
  ∧ ∀ z, get_body_position (calculate_position_model on_axis) 1 star_a_body
           (set_zoom z system_ab)
         = Some (Ok ((Z2float 800 / 2 + 0)%float, (Z2float 600 / 2 + 0)%float),
                 set_zoom z system_ab).
Proof.
  apply (get_body_position_root (calculate_position_model on_axis) 0 star_a_body system_ab).
  left. reflexivity.
Defined.

Lemma get_body_position_idempotent_witness :
  system_ab = system_ab
  ∧ get_body_position (calculate_position_model on_axis) 2 planet_b_body system_ab
    = Some (Ok (415, 300)%float, system_ab).
Proof.
  apply (get_body_position_idempotent (calculate_position_model on_axis)
           (calculate_position_model_pure on_axis) 2 planet_b_body system_ab).
  vm_compute. reflexivity.
Defined.

Lemma system_ab_acyclic : acyclic system_ab.
Proof.
  intros k n H. cbn [ancestor_key] in H.
  destruct (parent_key system_ab k) as [k1|] eqn:Hk1; [|discriminate]. simpl in H.
  assert (k = KInt 2 ∧ k1 = KInt 1) as [-> ->].
  { unfold parent_key in Hk1.
    destruct (decide (k = KInt 2)) as [->|Hne2];
      [vm_compute in Hk1; by injection Hk1 as <- |].
    destruct (decide (k = KInt 1)) as [->|Hne1]; [vm_compute in Hk1; discriminate|].
    change (bodies system_ab)
      with (<[KInt 1 := star_a_body]> ({[ KInt 2 := planet_b_body ]}
              : gmap key CelestialBody)) in Hk1.
    rewrite lookup_insert_ne, lookup_singleton_ne in Hk1 by congruence. discriminate. }
  destruct n as [|n]; [discriminate|]. vm_compute in H. discriminate.
Qed.

Lemma get_body_position_terminates_witness :
  is_Some (get_body_position (calculate_position_model on_axis)
             (S (size (bodies system_ab))) planet_b_body system_ab)
  ∧ ∀ depth, get_body_position (calculate_position_model on_axis) depth
               (plain_body 3 "C" "Planet" (Some 4%Z)) system_cycle = None.
Proof.
  split.
  - apply (proj1 (get_body_position_terminates (calculate_position_model on_axis) system_ab)).
    exact system_ab_acyclic.
  - apply (proj2 (get_body_position_terminates (calculate_position_model on_axis)
                    system_cycle) (KInt 3) _ 1%nat); vm_compute; reflexivity.
Defined.

Lemma scan_kind_witness :
  bodies (process_log_entry no_numeric_strings get_parent_id_model
            (JObj star_a) (init 800 600)).2 !! KInt 1 = Some star_a_body
  ∧ (type star_a_body = "Star" ∨ type star_a_body = "Planet" ∨ type star_a_body = "Moon")
  ∧ (type star_a_body = "Star" ↔ is_Some (star_a !! "StarType")).
Proof.
  apply (scan_kind no_numeric_strings get_parent_id_model star_a (init 800 600)
           star_a_body (KInt 1)); vm_compute; reflexivity.
Defined.

Lemma scan_exception_atomic_witness :
  init 800 600 = init 800 600
  ∧ ∃ self',
      process_log_entry no_numeric_strings get_parent_id_model (JObj nameless)
        (init 800 600) = (Ok (), self')
      ∧ bodies self' = bodies (init 800 600)
      ∧ stars self' = stars (init 800 600)
      ∧ log self' =
          (log (init 800 600)
             ++ [(ERROR, ("Error processing body data: "
                            ++ str_exn (KeyError "BodyName"))%string)])%list
      ∧ ∀ rest,
          process_entries no_numeric_strings get_parent_id_model
            (JObj nameless :: rest) (init 800 600)
          = process_entries no_numeric_strings get_parent_id_model rest self'.
Proof.
  apply (scan_exception_atomic no_numeric_strings get_parent_id_model nameless
           (init 800 600) (KeyError "BodyName") (init 800 600));
    vm_compute; reflexivity.
Defined.

(** C6 as stated fails: a Scan event without [BodyName] is not given an
    empty name; the [KeyError] drops it, and no body record is made. *)
Lemma nameless_scan_dropped :
  is_scan nameless
  ∧ nameless !! "BodyName" = None
  ∧ bodies (process_log_entry no_numeric_strings get_parent_id_model
              (JObj nameless) (init 800 600)).2 = ∅
  ∧ log (process_log_entry no_numeric_strings get_parent_id_model
           (JObj nameless) (init 800 600)).2
    = [(ERROR, "Error processing body data: 'BodyName'")].
Proof. vm_compute. repeat split; reflexivity. Qed.

Lemma scan_defaults_witness :
  ∃ k body,
    py_key (dict_get planet_b "BodyID" (JInt 0)) = Ok k
    ∧ bodies (process_log_entry no_numeric_strings get_parent_id_model
                (JObj planet_b) (init 800 600)).2 !! k = Some body
    ∧ (planet_b !! "BodyID" = None → k = KInt 0 ∧ body_id body = JInt 0)
    ∧ (planet_b !! "SemiMajorAxis" = None → semi_major_axis body = 0%float)
    ∧ (planet_b !! "Eccentricity" = None → eccentricity body = 0%float)
    ∧ (planet_b !! "OrbitalInclination" = None → orbital_inclination body = 0%float)
    ∧ (planet_b !! "OrbitalPeriod" = None → orbital_period body = 0%float)
    ∧ (planet_b !! "AscendingNode" = None → ascending_node body = 0%float)
    ∧ (planet_b !! "MeanAnomaly" = None → mean_anomaly body = 0%float)
    ∧ (planet_b !! "Radius" = None → radius body = 0%float)
    ∧ (planet_b !! mass_field planet_b = None → mass body = 0%float)
    ∧ (planet_b !! "DistanceFromArrivalLS" = None → distance_from_arrival body = 0%float)
    ∧ (planet_b !! "SurfaceTemperature" = None → surface_temp body = 0%float)
    ∧ (planet_b !! "SurfaceGravity" = None → surface_gravity body = 0%float)
    ∧ (planet_b !! "PlanetClass" = None → planet_class body = JStr "")
    ∧ (planet_b !! "AtmosphereType" = None → atmosphere_type body = JStr "")
    ∧ (planet_b !! "TerraformState" = None → terraform_state body = JStr "")
    ∧ (planet_b !! "Landable" = None → is_landable body = JBool false).
Proof.
  apply (scan_defaults no_numeric_strings get_parent_id_model planet_b (init 800 600)).
  - vm_compute. reflexivity.
  - vm_compute. eauto.
  - vm_compute. exact I.
  - vm_compute. exact I.
  - intros f Hf v Hv. unfold numeric_fields in Hf.
    repeat (apply elem_of_cons in Hf as [-> | Hf]);
      try (vm_compute in Hv; first [discriminate | injection Hv as <-; exact I]).
    by apply elem_of_nil in Hf.
Defined.

(** C9 as stated fails: a star scanned twice is in the star list twice. *)
Lemma rescanned_star_listed_twice :
  stars (process_entries no_numeric_strings get_parent_id_model
           [JObj star_a; JObj star_a] (init 800 600)).2 = [JInt 1; JInt 1]
  ∧ ¬ NoDup (stars (process_entries no_numeric_strings get_parent_id_model
                      [JObj star_a; JObj star_a] (init 800 600)).2).
Proof.
  assert (stars (process_entries no_numeric_strings get_parent_id_model
                   [JObj star_a; JObj star_a] (init 800 600)).2 = [JInt 1; JInt 1]) as ->
    by (vm_compute; reflexivity).
  split; [reflexivity|]. intros [Hnotin _]%NoDup_cons. apply Hnotin. left.
Qed.

Lemma stars_after_scans_witness :
  ∃ self',
    process_entries no_numeric_strings get_parent_id_model
      [JObj star_a; JObj planet_b; JObj star_a] (init 800 600) = (Ok (), self')
    ∧ stars self' =
        (stars (init 800 600)
           ++ omap (star_entry no_numeric_strings get_parent_id_model)
                [JObj star_a; JObj planet_b; JObj star_a])%list.
Proof.
  apply (stars_after_scans no_numeric_strings get_parent_id_model
           [JObj star_a; JObj planet_b; JObj star_a] (init 800 600)).
  repeat constructor; eexists; (split; [reflexivity | vm_compute; reflexivity]).
Defined.

(** C8 as stated fails: the watcher opens the only journal there is; a
    newer journal then appears, and turn after turn the watcher stays on
    the file it has open, which is no longer the newest. *)
Lemma watcher_misses_newer_file :
  (monitor_logs no_numeric_strings get_parent_id_model "C:\Journals"
     [quiet [journal_1]; quiet [journal_1; journal_2];
      quiet [journal_1; journal_2]; quiet [journal_1; journal_2]]
     Polling (init 800 600)).1 = Tailing "C:\Journals\Journal.1.log"
  ∧ (get_newest_file "C:\Journals" (Ok [journal_1; journal_2]) (init 800 600)).1
    = Some "C:\Journals\Journal.2.log".
Proof. vm_compute. split; reflexivity. Qed.

Lemma watcher_keeps_file_witness :
  (monitor_logs no_numeric_strings get_parent_id_model "C:\Journals"
     [quiet [journal_1; journal_2]; quiet [journal_1; journal_2]]
     (Tailing "C:\Journals\Journal.1.log") (init 800 600)).1
  = Tailing "C:\Journals\Journal.1.log"
  ∨ ∃ e,
      (monitor_logs no_numeric_strings get_parent_id_model "C:\Journals"
         [quiet [journal_1; journal_2]; quiet [journal_1; journal_2]]
         (Tailing "C:\Journals\Journal.1.log") (init 800 600)).1 = Crashed e.
Proof.
  apply (proj2 (watcher_keeps_file no_numeric_strings get_parent_id_model "C:\Journals")).
  repeat constructor; intros e H; discriminate H.
Defined.

(** * More of the program on the sample data *)

Lemma process_entries_bodies_witness :
  bodies system_ab
  = foldl store (bodies (init 800 600))
      (omap (stored_entry no_numeric_strings get_parent_id_model)
         [JObj star_a; JObj planet_b]).
Proof.
  apply (process_entries_bodies no_numeric_strings get_parent_id_model
           [JObj star_a; JObj planet_b] (init 800 600) system_ab).
  vm_compute. reflexivity.
Defined.

Lemma bodies_never_shrink_witness :
  dom (bodies system_ab)
  ⊆ dom (bodies (process_entries no_numeric_strings get_parent_id_model
                   [JObj nameless; JObj loop_event; JObj (∅ : gmap string json)]
                   system_ab).2).
Proof.
  apply (bodies_never_shrink no_numeric_strings get_parent_id_model
           [JObj nameless; JObj loop_event; JObj (∅ : gmap string json)] system_ab
           (process_entries no_numeric_strings get_parent_id_model
              [JObj nameless; JObj loop_event; JObj (∅ : gmap string json)] system_ab).1).
  vm_compute. reflexivity.
Defined.

Lemma scan_round_trip_witness :
  bodies (process_log_entry no_numeric_strings get_parent_id_model
            (JObj planet_b) (init 800 600)).2 !! KInt 2 = Some planet_b_body
  ∧ (∀ k', k' ≠ KInt 2 →
       bodies (process_log_entry no_numeric_strings get_parent_id_model
                 (JObj planet_b) (init 800 600)).2 !! k'
       = bodies (init 800 600) !! k')
  ∧ bodies (process_log_entry no_numeric_strings get_parent_id_model (JObj planet_b)
              (process_log_entry no_numeric_strings get_parent_id_model
                 (JObj planet_b) (init 800 600)).2).2
    = bodies (process_log_entry no_numeric_strings get_parent_id_model
                (JObj planet_b) (init 800 600)).2.
Proof.
  apply (scan_round_trip no_numeric_strings get_parent_id_model (JObj planet_b)
           (init 800 600)); vm_compute; reflexivity.
Defined.

Lemma keyed_preserved_witness : keyed system_ab.
Proof.
  apply (keyed_preserved no_numeric_strings get_parent_id_model
           [JObj star_a; JObj planet_b] (init 800 600) (Ok ()) system_ab).
  - apply map_Forall_empty.
  - vm_compute. reflexivity.
Defined.

Lemma stars_known_preserved_witness : stars_known system_ab.
Proof.
  apply (stars_known_preserved no_numeric_strings get_parent_id_model
           [JObj star_a; JObj planet_b] (init 800 600) system_ab).
  - constructor.
  - vm_compute. reflexivity.
Defined.

Lemma process_entries_effects_witness :
  log (process_entries no_numeric_strings get_parent_id_model
         [JObj star_a; JObj nameless] (init 800 600)).2
  = (log (init 800 600)
       ++ omap (error_entry no_numeric_strings get_parent_id_model)
            [JObj star_a; JObj nameless])%list
  ∧ queue (process_entries no_numeric_strings get_parent_id_model
             [JObj star_a; JObj nameless] (init 800 600)).2
    = (queue (init 800 600)
         ++ concat ((λ _, [draw_system; update_body_list])
                      <$> [JObj star_a; JObj nameless]))%list.
Proof.
  apply (process_entries_effects no_numeric_strings get_parent_id_model
           [JObj star_a; JObj nameless] (init 800 600)).
  vm_compute. reflexivity.
Defined.

Lemma watcher_skips_malformed_witness :
  ∃ self',
    monitor_logs no_numeric_strings get_parent_id_model "C:\Journals"
      [line (JObj star_a); garbage; line (JObj planet_b)]
      (Tailing "C:\Journals\Journal.1.log") (init 800 600)
    = (Tailing "C:\Journals\Journal.1.log", self')
    ∧ bodies self'
      = foldl store (bodies (init 800 600))
          (omap (stored_entry no_numeric_strings get_parent_id_model)
             (entries_of [line (JObj star_a); garbage; line (JObj planet_b)]))
    ∧ stars self'
      = (stars (init 800 600)
           ++ omap (star_entry no_numeric_strings get_parent_id_model)
                (entries_of [line (JObj star_a); garbage; line (JObj planet_b)]))%list.
Proof.
  apply (watcher_skips_malformed no_numeric_strings get_parent_id_model "C:\Journals"
           [line (JObj star_a); garbage; line (JObj planet_b)]).
  - repeat constructor; intros e; discriminate.
  - repeat constructor; eexists; (split; [reflexivity | vm_compute; eauto]).
Defined.

Lemma watcher_dies_on_bad_entry_witness :
  ∃ e,
    monitor_logs no_numeric_strings get_parent_id_model "C:\Journals"
      [line (JObj ∅); line (JObj star_a)]
      (Tailing "C:\Journals\Journal.1.log") (init 800 600)
    = (Crashed e, init 800 600)
    ∧ (e = KeyError "event" ∨ e = not_a_dict (JObj ∅)).
Proof.
  apply (watcher_dies_on_bad_entry no_numeric_strings get_parent_id_model "C:\Journals"
           (line (JObj ∅)) [line (JObj star_a)]).
  - reflexivity.
  - reflexivity.
  - intros (d & [= <-] & [v Hv]). rewrite lookup_empty in Hv. discriminate.
Defined.

Lemma watcher_stops_witness :
  ∃ st',
    monitor_logs no_numeric_strings get_parent_id_model "C:\Journals"
      [shutdown; shutdown; line (JObj star_a)]
      (Tailing "C:\Journals\Journal.1.log") system_ab = (st', system_ab)
    ∧ (st' = Returned ∨ ∃ e, st' = Crashed e).
Proof.
  apply (watcher_stops no_numeric_strings get_parent_id_model "C:\Journals"
           (Tailing "C:\Journals\Journal.1.log") system_ab shutdown shutdown
           [line (JObj star_a)]); reflexivity.
Defined.

Lemma watcher_keeps_polling_witness :
  ∃ self',
    monitor_logs no_numeric_strings get_parent_id_model "C:\Journals"
      [quiet [notes]; vanished [journal_1];
       {| running := true; listing := Raise (OtherException "PermissionError" "denied");
          opening := Opened; next_line := NoLine |}]
      Polling system_ab = (Polling, self')
    ∧ bodies self' = bodies system_ab ∧ stars self' = stars system_ab
    ∧ queue self' = queue system_ab.
Proof.
  apply (watcher_keeps_polling no_numeric_strings get_parent_id_model "C:\Journals").
  apply Forall_cons. split; [split; [reflexivity | left; vm_compute; reflexivity]|].
  apply Forall_cons. split; [split; [reflexivity | right; right; reflexivity]|].
  apply Forall_cons. split; [|apply Forall_nil_2].
  split; [reflexivity | right; left; eexists; vm_compute; reflexivity].
Defined.

Lemma get_newest_file_first_newest_witness :
  init 800 600 = init 800 600
  ∧ ∃ names l1 best l2 t,
      Ok [journal_1; notes; journal_2; journal_3] = Ok names
      ∧ journal_files names = (l1 ++ best :: l2)%list
      ∧ "C:\Journals\Journal.2.log" = path_join "C:\Journals" (entry_name best)
      ∧ is_journal (entry_name best) = true
      ∧ entry_is_file best = true
      ∧ entry_mtime best = Ok t
      ∧ Forall (older_than t) l1
      ∧ Forall (not_newer_than t) l2.
Proof.
  apply (get_newest_file_first_newest "C:\Journals"
           (Ok [journal_1; notes; journal_2; journal_3]) (init 800 600)
           "C:\Journals\Journal.2.log" (init 800 600)).
  vm_compute. reflexivity.
Defined.

Lemma self_parent_never_resolves_witness :
  bodies (process_log_entry no_numeric_strings get_parent_id_model
            (JObj loop_event) system_ab).2 !! KInt 5 = Some loop_body
  ∧ ∀ depth,
      get_body_position (calculate_position_model on_axis) depth loop_body
        (process_log_entry no_numeric_strings get_parent_id_model
           (JObj loop_event) system_ab).2 = None.
Proof.
  apply (self_parent_never_resolves no_numeric_strings get_parent_id_model
           (calculate_position_model on_axis) loop_event 5 (KInt 5) loop_body system_ab).
  - vm_compute. reflexivity.
  - reflexivity.
  - vm_compute. reflexivity.
  - lia.
Defined.

Lemma process_entries_view_witness :
  canvas_width system_ab = canvas_width (init 800 600)
  ∧ canvas_height system_ab = canvas_height (init 800 600)
  ∧ center_x system_ab = center_x (init 800 600)
  ∧ center_y system_ab = center_y (init 800 600)
  ∧ scale_factor system_ab = scale_factor (init 800 600)
  ∧ zoom system_ab = zoom (init 800 600)
  ∧ animation_time system_ab = animation_time (init 800 600).
Proof.
  apply (process_entries_view no_numeric_strings get_parent_id_model
           [JObj star_a; JObj planet_b] (init 800 600) (Ok ()) system_ab).
  vm_compute. reflexivity.
Defined.


Lemma get_body_position_chain_witness :
  get_body_position (calculate_position_model on_axis) 2 planet_b_body system_ab
  = Some (position_sum (calculate_position_model on_axis) system_ab planet_b_body
            [star_a_body], system_ab)
  ∧ ∀ depth : nat, (depth ≤ 1)%nat →
      get_body_position (calculate_position_model on_axis) depth planet_b_body system_ab
      = None.
Proof.
  apply (get_body_position_chain (calculate_position_model on_axis)
           (calculate_position_model_pure on_axis) system_ab [star_a_body] planet_b_body).
  vm_compute. split; reflexivity.
Defined.

(** A [FileNotFoundError] while reading is caught by the handler
    around the [with] block: the watcher logs it and is back at the outer
    loop; any other read error ends the thread. *)
Example read_errors :
  monitor_step no_numeric_strings get_parent_id_model "C:\Journals"
    {| running := true; listing := Ok [journal_1; journal_2]; opening := Opened;
       next_line := ReadError (OtherException "FileNotFoundError" "gone") |}
    (Tailing "C:\Journals\Journal.1.log") (init 800 600)
  = (Polling, logging ERROR "File not found: C:\Journals\Journal.1.log" (init 800 600))
  ∧ monitor_step no_numeric_strings get_parent_id_model "C:\Journals"
      {| running := true; listing := Ok [journal_1; journal_2]; opening := Opened;
         next_line := ReadError (ValueError "invalid start byte") |}
      (Tailing "C:\Journals\Journal.1.log") (init 800 600)
    = (Crashed (ValueError "invalid start byte"), init 800 600).
Proof. split; reflexivity. Qed.
